(** * sfp_alienvault: the AlienVault OTX enrichment plug-in

    A shallow embedding of [modules/sfp_alienvault.py] and the properties its
    specification states about it.

    Conventions of the embedding.
    - The plug-in instance ([self]) is the record [Plugin]; every method is a
      computation in the state-and-exception monad [M].  A raised Python
      exception keeps the mutations made before it, as in Python.
    - What the plug-in reaches outside itself is the record [World]: the
      framework handle ([self.sf.validIP], [self.sf.fetchUrl]), the base
      class's [checkForStop], [netaddr.IPNetwork], and the clock and the
      timestamp parser of the standard library.  The transport, the clock
      and the stop signal may answer differently each time they are asked:
      they take the number of earlier calls.
    - [json.loads] gives dynamically typed values; they are the type [json],
      with Python 3 semantics for the operations the code applies to them
      ([in], [.get], [[]], iteration, [<], [str], [+]).  JSON numbers are
      integers here; [JNull] is Python's [None].
    - [self.sf.debug], [self.sf.info] and [self.sf.error(_, False)] only
      write to the log and never raise; they are left out.
    - [self.notifyListeners(e)] appends [e] to [emitted]; each transport
      call is appended, with its answer, to [calls]. *)

From Stdlib Require Import ZArith String Ascii List Bool DecimalString.
From stdpp Require Import base gmap strings list.
Import ListNotations.
Open Scope Z_scope.
Open Scope string_scope.
Open Scope list_scope.

(* ===================================================================== *)
(** ** Data model *)
(* ===================================================================== *)

(** Values produced by [json.loads].  A dict is kept as an association list
    in insertion order (iteration over a dict yields its keys in order). *)
#[local] Unset Elimination Schemes.
Inductive json : Type :=
| JNull
| JBool (b : bool)
| JInt (z : Z)
| JStr (s : string)
| JList (l : list json)
| JDict (d : list (string * json)).
#[local] Set Elimination Schemes.

(** The Python exceptions the module can let escape. *)
Inductive exn : Type :=
| KeyError (k : string)
| ValueError
| TypeError
| AttributeError
| UnboundLocalError (v : string)
| AddrFormatError.

Inductive result (A : Type) : Type :=
| Ok (a : A)
| Raise (e : exn).
Arguments Ok {A} a.
Arguments Raise {A} e.

(** [opts]: the option dict, at the types its descriptions give. *)
Record Opts : Type := mkOpts {
  apikey : string;
  age_limit_days : Z;
  threat_score_min : Z;
  fetchtimeout : Z            (* opts['_fetchtimeout'], set by the framework *)
}.

(** The user's options: for each key, the override if the key is present. *)
Record UserOpts : Type := mkUserOpts {
  u_apikey : option string;
  u_age_limit_days : option Z;
  u_threat_score_min : option Z;
  u_fetchtimeout : option Z
}.

(** The class-level defaults.  The class dict has no entry for
    [_fetchtimeout]: the framework writes it, with the other global options,
    into the options it passes to [setup] before any event is handled, and
    [query] reads it with no default.  The record is the dict once that
    entry is there; 5 is the framework's default for it. *)
Definition default_opts : Opts :=
  {| apikey := ""; age_limit_days := 30; threat_score_min := 2; fetchtimeout := 5 |}.

(** An incoming event. *)
#[local] Unset Elimination Schemes.
Inductive SpiderFootEvent : Type :=
  mkEvent (eventType : string) (data : string) (module : string)
          (sourceEvent : option SpiderFootEvent).
#[local] Set Elimination Schemes.

Definition eventType (e : SpiderFootEvent) : string :=
  match e with mkEvent t _ _ _ => t end.
Definition data (e : SpiderFootEvent) : string :=
  match e with mkEvent _ d _ _ => d end.
Definition module (e : SpiderFootEvent) : string :=
  match e with mkEvent _ _ m _ => m end.

(** An event built by the module: [SpiderFootEvent(evtType, d, self.__name__, event)].
    Its data is the description string or the hostname value as the service sent it. *)
Record Finding : Type := mkFinding {
  f_type : string;
  f_data : json;
  f_module : string;
  f_source : SpiderFootEvent
}.

(** The arguments of one [fetchUrl] call and what it returned. *)
Record Request : Type := mkRequest {
  url : string;
  timeout : Z;
  useragent : string;
  headers : list (string * string)
}.

(** The body of a response, as [json.loads] sees it. *)
Inductive body : Type :=
| Unparseable (raw : string)      (* json.loads raises *)
| Json (v : json).                (* json.loads returns v *)

Record Response : Type := mkResponse {
  code : option string;
  content : option body
}.

(** The two timestamp formats. *)
Inductive TsFormat : Type :=
| FmtPassiveDns       (* '%Y-%m-%d %H:%M:%S' *)
| FmtActivity.        (* '%Y-%m-%dT%H:%M:%S' *)

Record World : Type := mkWorld {
  validIP : string -> bool;
  fetchUrl : nat -> Request -> Response;
  checkForStop : nat -> bool;
  IPNetwork : string -> option (list string);   (* None: AddrFormatError *)
  time_time : nat -> Z;                          (* int(time.time()) *)
  (* int(time.mktime(datetime.strptime(s, fmt).timetuple())); None: ValueError *)
  strptime_ts : TsFormat -> string -> option Z
}.

(** The plug-in instance, with the record of what it did to the outside. *)
Record Plugin : Type := mkPlugin {
  opts : Opts;
  results : gmap string bool;
  errorState : bool;
  calls : list (Request * Response);
  emitted : list Finding;
  clock_reads : nat;
  stop_polls : nat
}.

Definition watchedEvents : list string :=
  ["IP_ADDRESS"; "AFFILIATE_IPADDR"; "INTERNET_NAME";
   "CO_HOSTED_SITE"; "NETBLOCK_OWNER"; "NETBLOCK_MEMBER";
   "AFFILIATE_INTERNET_NAME"; "IPV6_ADDRESS"].

Definition producedEvents : list string :=
  ["MALICIOUS_IPADDR"; "MALICIOUS_INTERNET_NAME";
   "MALICIOUS_COHOST"; "MALICIOUS_AFFILIATE_INTERNET_NAME";
   "MALICIOUS_AFFILIATE_IPADDR"; "MALICIOUS_NETBLOCK";
   "CO_HOSTED_SITE"].

Definition self_name : string := "sfp_alienvault".

(* ===================================================================== *)
(** ** The state-and-exception monad *)
(* ===================================================================== *)

Definition M (A : Type) : Type := Plugin -> result A * Plugin.

Definition ret {A} (a : A) : M A := fun st => (Ok a, st).
Definition raise {A} (e : exn) : M A := fun st => (Raise e, st).
Definition bind {A B} (m : M A) (k : A -> M B) : M B :=
  fun st => match m st with
            | (Ok a, st') => k a st'
            | (Raise e, st') => (Raise e, st')
            end.
Definition lift {A} (r : result A) : M A := fun st => (r, st).
Definition gets {A} (f : Plugin -> A) : M A := fun st => (Ok (f st), st).
Definition modify (f : Plugin -> Plugin) : M unit := fun st => (Ok tt, f st).

Declare Scope py_scope.
Delimit Scope py_scope with py.
Notation "x <- c1 ;; c2" := (bind c1 (fun x => c2))
  (at level 100, c1 at next level, right associativity) : py_scope.
Notation "c1 ;;; c2" := (bind c1 (fun _ => c2))
  (at level 100, right associativity) : py_scope.
Open Scope py_scope.

(* ===================================================================== *)
(** ** Python operations on strings and JSON values *)
(* ===================================================================== *)

(** [needle in hay] on two strings. *)
Fixpoint str_in (needle hay : string) : bool :=
  String.prefix needle hay ||
  match hay with
  | EmptyString => false
  | String _ hay' => str_in needle hay'
  end.

Definition startswith (s pre : string) : bool := String.prefix pre s.

(** [str(z)] for an int. *)
Definition str_of_Z (z : Z) : string := NilZero.string_of_int (Z.to_int z).

Fixpoint assoc (k : string) (d : list (string * json)) : option json :=
  match d with
  | [] => None
  | (k', v) :: d' => if String.eqb k k' then Some v else assoc k d'
  end.

(** Truth value of [v] in an [if]. *)
Definition truthy (v : json) : bool :=
  match v with
  | JNull => false
  | JBool b => b
  | JInt z => negb (z =? 0)%Z
  | JStr s => negb (String.eqb s "")
  | JList l => match l with [] => false | _ :: _ => true end
  | JDict d => match d with [] => false | _ :: _ => true end
  end.

(** [v.get(k, dflt)]: only a dict has [get]. *)
Definition py_get (v : json) (k : string) (dflt : json) : result json :=
  match v with
  | JDict d => Ok (default dflt (assoc k d))
  | _ => Raise AttributeError
  end.

(** [v[k]] with a string key. *)
Definition py_getitem (v : json) (k : string) : result json :=
  match v with
  | JDict d => match assoc k d with
               | Some x => Ok x
               | None => Raise (KeyError k)
               end
  | _ => Raise TypeError
  end.

(** [k in v] with a string [k]. *)
Definition py_in (k : string) (v : json) : result bool :=
  match v with
  | JDict d => Ok (bool_decide (is_Some (assoc k d)))
  | JList l => Ok (existsb (fun x => match x with
                                     | JStr s => String.eqb s k
                                     | _ => false
                                     end) l)
  | JStr s => Ok (str_in k s)
  | _ => Raise TypeError
  end.

(** What [for x in v] iterates over. *)
Definition py_iter (v : json) : result (list json) :=
  match v with
  | JList l => Ok l
  | JDict d => Ok (map (fun kv => JStr (fst kv)) d)
  | JStr s => Ok (map (fun c => JStr (String c EmptyString)) (list_ascii_of_string s))
  | _ => Raise TypeError
  end.

(** [v < n] against an int. *)
Definition py_lt (v : json) (n : Z) : result bool :=
  match v with
  | JInt z => Ok (z <? n)%Z
  | JBool b => Ok (Z.b2z b <? n)%Z
  | _ => Raise TypeError
  end.

(** [str(v)].  The module applies it only to a value that [py_lt] accepted,
    an int or a bool; the other scalars are given for completeness and a
    container, never reached, is left without its repr. *)
Definition py_str (v : json) : string :=
  match v with
  | JInt z => str_of_Z z
  | JBool true => "True"
  | JBool false => "False"
  | JNull => "None"
  | JStr s => s
  | JList _ | JDict _ => ""
  end.

(** A value used where a [str] is required (concatenation, strptime). *)
Definition py_as_str (v : json) : result string :=
  match v with
  | JStr s => Ok s
  | _ => Raise TypeError
  end.

(* ===================================================================== *)
(** ** The methods of the plug-in *)
(* ===================================================================== *)

Definition set_errorState (b : bool) (st : Plugin) : Plugin :=
  mkPlugin (opts st) (results st) b (calls st) (emitted st)
           (clock_reads st) (stop_polls st).

Definition set_results (r : gmap string bool) (st : Plugin) : Plugin :=
  mkPlugin (opts st) r (errorState st) (calls st) (emitted st)
           (clock_reads st) (stop_polls st).

Definition set_opts (o : Opts) (st : Plugin) : Plugin :=
  mkPlugin o (results st) (errorState st) (calls st) (emitted st)
           (clock_reads st) (stop_polls st).

(** [self.results[k] = True] *)
Definition mark (k : string) (st : Plugin) : Plugin :=
  set_results (<[k := true]> (results st)) st.

(** [setup(sfc, userOpts)]: a fresh [results] dict and the user's options
    written over [opts], key by key.  ([self.sf = sfc] rebinds the handle
    the [World] stands for.)  Nothing else of the instance is touched. *)
Definition merge_opts (u : UserOpts) (o : Opts) : Opts :=
  {| apikey := default (apikey o) (u_apikey u);
     age_limit_days := default (age_limit_days o) (u_age_limit_days u);
     threat_score_min := default (threat_score_min o) (u_threat_score_min u);
     fetchtimeout := default (fetchtimeout o) (u_fetchtimeout u) |}.

Definition setup (userOpts : UserOpts) (st : Plugin) : Plugin :=
  set_opts (merge_opts userOpts (opts st)) (set_results ∅ st).

(** The instance as the class body leaves it, before the first [setup]. *)
Definition fresh_plugin : Plugin :=
  mkPlugin default_opts ∅ false [] [] 0 0.

Definition base_url : string := "https://otx.alienvault.com:443/api/v1/indicators/".

Section Methods.
Variable w : World.

(** [self.sf.fetchUrl(url, timeout=..., useragent=..., headers=...)] *)
Definition do_fetch (rq : Request) : M Response :=
  fun st =>
    let res := fetchUrl w (length (calls st)) rq in
    (Ok res,
     mkPlugin (opts st) (results st) (errorState st) (calls st ++ [(rq, res)])
              (emitted st) (clock_reads st) (stop_polls st)).

(** [int(time.time())] *)
Definition do_time : M Z :=
  fun st =>
    (Ok (time_time w (clock_reads st)),
     mkPlugin (opts st) (results st) (errorState st) (calls st)
              (emitted st) (S (clock_reads st)) (stop_polls st)).

(** [self.checkForStop()] *)
Definition do_checkForStop : M bool :=
  fun st =>
    (Ok (checkForStop w (stop_polls st)),
     mkPlugin (opts st) (results st) (errorState st) (calls st)
              (emitted st) (clock_reads st) (S (stop_polls st))).

(** [self.notifyListeners(e)] *)
Definition notifyListeners (e : Finding) : M unit :=
  modify (fun st =>
    mkPlugin (opts st) (results st) (errorState st) (calls st)
             (emitted st ++ [e]) (clock_reads st) (stop_polls st)).

(** [int(time.mktime(datetime.strptime(v, fmt).timetuple()))] *)
Definition do_strptime (fmt : TsFormat) (v : json) : M Z :=
  s <- lift (py_as_str v) ;;
  match strptime_ts w fmt s with
  | Some t => ret t
  | None => raise ValueError
  end.

Definition query_url (qry querytype : string) : string :=
  let targettype := "hostname" in
  let targettype := if str_in ":" qry then "IPv6" else targettype in
  let targettype := if validIP w qry then "IPv4" else targettype in
  let querytype :=
    if bool_decide (querytype ∈ ["passive_dns"; "reputation"])
    then querytype else "reputation" in
  base_url +:+ targettype +:+ "/" +:+ qry +:+ "/" +:+ querytype.

(** [query(qry, querytype)]; the result [JNull] is Python's [None]. *)
Definition query (qry querytype : string) : M json :=
  let url := query_url qry querytype in
  o <- gets opts ;;
  let headers := [("Accept", "application/json");
                  ("X-OTX-API-KEY", apikey o)] in
  res <- do_fetch (mkRequest url (fetchtimeout o) "SpiderFoot" headers) ;;
  if bool_decide (code res = Some "403") then
    modify (set_errorState true) ;;;
    ret JNull
  else if bool_decide (content res = None) || bool_decide (code res = Some "404") then
    ret JNull
  else
    match content res with
    | Some (Json info) => ret info
    | Some (Unparseable _) => ret JNull
    | None => ret JNull
    end.

(** The netblock branch of [handleEvent]:
    [for ipaddr in IPNetwork(eventData): qrylist.append(..); self.results[..] = True] *)
Definition expand_netblock (eventData : string) : M (list string) :=
  match IPNetwork w eventData with
  | None => raise AddrFormatError
  | Some ips =>
      modify (fun st => foldl (fun s ip => mark ip s) st ips) ;;;
      ret ips
  end.

(** [age_limit_days > 0 and ts < age_limit_ts] *)
Definition too_old (o : Opts) (ts now : Z) : bool :=
  (0 <? age_limit_days o)%Z && (ts <? now - 86400 * age_limit_days o)%Z.

(** The body of [for rec in res] of the passive-DNS block. *)
Definition passive_dns_entry (event : SpiderFootEvent) (evtType : string)
           (rec : json) : M unit :=
  has <- lift (py_in "hostname" rec) ;;
  if has then
    last <- lift (py_get rec "last" (JStr "")) ;;
    last_ts <- do_strptime FmtPassiveDns last ;;
    now <- do_time ;;
    o <- gets opts ;;
    host <- lift (py_getitem rec "hostname") ;;
    if too_old o last_ts now then ret tt
    else notifyListeners (mkFinding evtType host self_name event)
  else ret tt.

Fixpoint passive_dns_loop (event : SpiderFootEvent) (evtType : string)
         (res : list json) : M unit :=
  match res with
  | [] => ret tt
  | rec :: rest =>
      passive_dns_entry event evtType rec ;;;
      passive_dns_loop event evtType rest
  end.

(** The block under [if eventName == "IP_ADDRESS":]. *)
Definition passive_dns_block (event : SpiderFootEvent) : M unit :=
  let evtType := "CO_HOSTED_SITE" in
  ret_ <- query (data event) "passve_dns" ;;
  match ret_ with
  | JNull => ret tt
  | _ =>
      has <- lift (py_in "passve_dns" ret_) ;;
      if has then
        res <- lift (py_getitem ret_ "passive_dns") ;;
        recs <- lift (py_iter res) ;;
        passive_dns_loop event evtType recs
      else ret tt
  end.

(** The chain of [if]s that sets [evtType] at the head of the target loop;
    [None] is the variable not yet assigned. *)
Definition dispatch (eventName : string) (evtType : option string) : option string :=
  let evtType :=
    if String.eqb eventName "IP_ADDRESS" || startswith eventName "NETBLOCK_"
    then Some "MALICIOUS_IPADDR" else evtType in
  let evtType :=
    if String.eqb eventName "AFFILIATE_IPADDR"
    then Some "MALICIOUS_AFFILIATE_IPADDR" else evtType in
  let evtType :=
    if String.eqb eventName "INTERNET_NAME"
    then Some "MALICIOUS_INTERNET_NAME" else evtType in
  let evtType :=
    if String.eqb eventName "AFFILIATE_INTERNET_NAME"
    then Some "MALICIOUS_AFFILIATE_INTERNET_NAME" else evtType in
  let evtType :=
    if String.eqb eventName "CO_HOSTED_SITE"
    then Some "MALICIOUS_COHOST" else evtType in
  evtType.

(** The body of [for result in rec_history]; it returns the new [descr]. *)
Definition activity_entry (descr : string) (result_ : json) : M string :=
  name <- lift (py_get result_ "name" (JStr "")) ;;
  name <- lift (py_as_str name) ;;
  let descr := descr +:+ ("
 - " +:+ name) in
  created <- lift (py_get result_ "last_date" (JStr "")) ;;
  created_ts <- do_strptime FmtActivity created ;;
  now <- do_time ;;
  o <- gets opts ;;
  if too_old o created_ts now then ret descr     (* continue *)
  else ret descr.                                (* cats_description = "" *)

Fixpoint activity_loop (descr : string) (rec_history : list json) : M string :=
  match rec_history with
  | [] => ret descr
  | result_ :: rest =>
      descr <- activity_entry descr result_ ;;
      activity_loop descr rest
  end.

(** The block under [if rec is not None:]: classify the record and emit. *)
Definition classify (event : SpiderFootEvent) (evtType : option string)
           (rec : json) : M unit :=
  match rec with
  | JNull => ret tt
  | _ =>
      rep <- lift (py_get rec "reputation" JNull) ;;
      if truthy rep then
        rep <- lift (py_getitem rec "reputation") ;;
        rec_history <- lift (py_get rep "activities" (JList [])) ;;
        rep <- lift (py_getitem rec "reputation") ;;
        score <- lift (py_getitem rep "threat_score") ;;
        o <- gets opts ;;
        below <- lift (py_lt score (threat_score_min o)) ;;
        if below then ret tt       (* continue *)
        else
          let descr := "Threat Score: " +:+ py_str score +:+ ":" in
          history <- lift (py_iter rec_history) ;;
          descr <- activity_loop descr history ;;
          match evtType with
          | None => raise (UnboundLocalError "evtType")
          | Some t => notifyListeners (mkFinding t (JStr descr) self_name event)
          end
      else ret tt
  end.

(** The body of [for addr in qrylist] after the stop check and the
    dispatch: query, then classify and emit. *)
Definition reputation_target (event : SpiderFootEvent) (evtType : option string)
           (addr : string) : M unit :=
  rec <- query addr "reputation" ;;
  classify event evtType rec.

Fixpoint reputation_loop (event : SpiderFootEvent) (evtType : option string)
         (qrylist : list string) : M unit :=
  match qrylist with
  | [] => ret tt
  | addr :: rest =>
      stop <- do_checkForStop ;;
      if stop then ret tt           (* return None *)
      else
        let evtType := dispatch (eventType event) evtType in
        reputation_target event evtType addr ;;;
        reputation_loop event evtType rest
  end.

Definition handleEvent (event : SpiderFootEvent) : M unit :=
  let eventName := eventType event in
  let eventData := data event in
  es <- gets errorState ;;
  if es then ret tt
  else
    o <- gets opts ;;
    if String.eqb (apikey o) "" then
      modify (set_errorState true) ;;;
      ret tt
    else
      seen <- gets results ;;
      if bool_decide (is_Some (seen !! eventData)) then ret tt
      else
        modify (mark eventData) ;;;
        qrylist <- (if startswith eventName "NETBLOCK_"
                    then expand_netblock eventData
                    else ret [eventData]) ;;
        evtType <- (if String.eqb eventName "IP_ADDRESS"
                    then passive_dns_block event ;;; ret (Some "CO_HOSTED_SITE")
                    else ret None) ;;
        reputation_loop event evtType qrylist.

(** A run: the events handled one after the other on the same instance.
    The state an event leaves is the state the next one finds, whether
    the handler returned or raised. *)
Fixpoint run (events : list SpiderFootEvent) (st : Plugin) : Plugin :=
  match events with
  | [] => st
  | e :: rest => run rest (snd (handleEvent e st))
  end.

End Methods.

(* ===================================================================== *)
(** ** Concrete worlds for the examples *)
(* ===================================================================== *)

Module Fixture.

(** The host's clock and zone for the examples: UTC, timestamps with
    zero-padded fields, [sep] between date and time.  ([strptime] also takes
    a field without its leading zero; the examples have none.) *)
Definition digits (s : string) : option Z :=
  foldl (fun acc c =>
           match acc with
           | Some n =>
               let k := Z.of_nat (nat_of_ascii c) in
               if (48 <=? k)%Z && (k <=? 57)%Z then Some (10 * n + (k - 48))%Z
               else None
           | None => None
           end) (Some 0%Z) (list_ascii_of_string s).

Definition days_from_civil (y m d : Z) : Z :=
  let y' := if (m <=? 2)%Z then y - 1 else y in
  let era := y' / 400 in
  let yoe := y' - era * 400 in
  let mp := (m + 9) mod 12 in
  let doy := (153 * mp + 2) / 5 + d - 1 in
  let doe := yoe * 365 + yoe / 4 - yoe / 100 + doy in
  era * 146097 + doe - 719468.

Definition days_in_month (y m : Z) : Z :=
  if Z.eqb m 2
  then (if Z.eqb (y mod 4) 0 && (negb (Z.eqb (y mod 100) 0) || Z.eqb (y mod 400) 0)
        then 29 else 28)
  else if Z.eqb m 4 || Z.eqb m 6 || Z.eqb m 9 || Z.eqb m 11 then 30 else 31.

Definition utc_timestamp (sep : string) (s : string) : option Z :=
  if negb (Nat.eqb (String.length s) 19) then None
  else if negb (String.eqb (substring 4 1 s) "-" && String.eqb (substring 7 1 s) "-"
                && String.eqb (substring 10 1 s) sep
                && String.eqb (substring 13 1 s) ":" && String.eqb (substring 16 1 s) ":")
  then None
  else
    match digits (substring 0 4 s), digits (substring 5 2 s), digits (substring 8 2 s),
          digits (substring 11 2 s), digits (substring 14 2 s), digits (substring 17 2 s) with
    | Some y, Some mo, Some d, Some h, Some mi, Some sec =>
        if (1 <=? mo)%Z && (mo <=? 12)%Z && (1 <=? d)%Z && (d <=? days_in_month y mo)%Z
           && (h <? 24)%Z && (mi <? 60)%Z && (sec <? 62)%Z
        then Some (days_from_civil y mo d * 86400 + h * 3600 + mi * 60 + sec)%Z
        else None
    | _, _, _, _, _, _ => None
    end.

Definition strptime_utc (fmt : TsFormat) (s : string) : option Z :=
  match fmt with
  | FmtPassiveDns => utc_timestamp " " s
  | FmtActivity => utc_timestamp "T" s
  end.

(** A dotted quad, loosely: digits and exactly three dots. *)
Definition dotted_quad (s : string) : bool :=
  let cs := list_ascii_of_string s in
  forallb (fun c => let k := nat_of_ascii c in
                    Nat.eqb k 46 || (Nat.leb 48 k && Nat.leb k 57)) cs
  && Nat.eqb (length (filter (fun c => nat_of_ascii c = 46%nat) cs)) 3.

Definition netblocks (s : string) : option (list string) :=
  if String.eqb s "10.0.0.0/31" then Some ["10.0.0.0"; "10.0.0.1"]
  else if String.eqb s "192.0.2.0/30"
       then Some ["192.0.2.0"; "192.0.2.1"; "192.0.2.2"; "192.0.2.3"]
       else None.

(** 2023-11-14 22:13:20 UTC *)
Definition now : Z := 1700000000.

(** A world whose transport is [fetch]; nobody asks the scan to stop. *)
Definition world (fetch : nat -> Request -> Response) : World :=
  {| validIP := dotted_quad;
     fetchUrl := fetch;
     checkForStop := fun _ => false;
     IPNetwork := netblocks;
     time_time := fun _ => now;
     strptime_ts := strptime_utc |}.

(** A service that answers by URL alone. *)
Definition service (by_url : string -> Response) : World :=
  world (fun _ rq => by_url (url rq)).

Definition ok_json (v : json) : Response := mkResponse (Some "200") (Some (Json v)).
Definition not_found : Response := mkResponse (Some "404") (Some (Unparseable "")).
Definition forbidden : Response := mkResponse (Some "403") (Some (Unparseable "")).

Definition activity (name last_date : string) : json :=
  JDict [("name", JStr name); ("last_date", JStr last_date)].

Definition reputation_record (score : Z) (activities : list json) : json :=
  JDict [("reputation",
          JDict [("threat_score", JInt score); ("activities", JList activities)])].

Definition passive_dns_record (entries : list json) : json :=
  JDict [("passive_dns", JList entries)].

Definition pdns_entry (hostname last : string) : json :=
  JDict [("hostname", JStr hostname); ("last", JStr last)].

(** A configured instance after [setup]. *)
Definition configured : Plugin :=
  setup (mkUserOpts (Some "0123456789abcdef") None None (Some 30%Z)) fresh_plugin.

Definition ip_event (addr : string) : SpiderFootEvent :=
  mkEvent "IP_ADDRESS" addr "sfp_dnsresolve" None.

End Fixture.

(** The situations the examples run. *)
Module Scenario.
Import Fixture.

Definition reputation_of (id : string) : string :=
  base_url +:+ "IPv4/" +:+ id +:+ "/reputation".
Definition passive_dns_of (id : string) : string :=
  base_url +:+ "IPv4/" +:+ id +:+ "/passive_dns".

(** One address with one co-hosted name seen two weeks ago and a
    reputation of score 5 with one recent activity. *)
Definition cohosted : World :=
  service (fun u =>
    if String.eqb u (passive_dns_of "203.0.113.5")
    then ok_json (passive_dns_record [pdns_entry "a.example.com" "2023-11-01 00:00:00"])
    else if String.eqb u (reputation_of "203.0.113.5")
    then ok_json (reputation_record 5 [activity "Scanning Host" "2023-11-10T08:00:00"])
    else not_found).

(** A name whose record has one activity of 2020 and one of last week. *)
Definition stale_activity : World :=
  service (fun _ =>
    ok_json (reputation_record 5 [activity "Scanning Host" "2020-01-01T00:00:00";
                                  activity "Malware Domain" "2023-11-10T08:00:00"])).

(** A record whose only activity has no [last_date]. *)
Definition undated_activity : World :=
  service (fun _ =>
    ok_json (reputation_record 5 [JDict [("name", JStr "Scanning Host")]])).

(** A record whose only activity is dated as in the comment of the activity
    loop, with a fraction of a second. *)
Definition fractional_activity : World :=
  service (fun _ =>
    ok_json (reputation_record 5 [activity "Scanning Host" "2014-11-06T10:45:00.000"])).


(** A score under the default threshold, with a recent activity. *)
Definition low_score : World :=
  service (fun _ =>
    ok_json (reputation_record 1 [activity "Scanning Host" "2023-11-10T08:00:00"])).

(** An answer that has both the misspelt key the handler tests for and
    the key it then reads, with one entry whose hostname is empty and
    one whose [last] is missing. *)
Definition both_keys (entries : list json) : World :=
  service (fun _ =>
    ok_json (JDict [("passve_dns", JBool true); ("passive_dns", JList entries)])).


(** The service rejects the key on every request. *)
Definition rejected : World := service (fun _ => forbidden).

Definition name_event : SpiderFootEvent :=
  mkEvent "INTERNET_NAME" "example.com" "sfp_dnsresolve" None.
Definition ipv6_event : SpiderFootEvent :=
  mkEvent "IPV6_ADDRESS" "2001:db8::1" "sfp_dnsresolve" None.
Definition affiliate_event : SpiderFootEvent :=
  mkEvent "AFFILIATE_IPADDR" "10.0.0.1" "sfp_dnsresolve" None.
Definition netblock_event : SpiderFootEvent :=
  mkEvent "NETBLOCK_OWNER" "10.0.0.0/31" "sfp_ripe" None.

(** An instance set up without a key. *)
Definition unconfigured : Plugin :=
  setup (mkUserOpts None None None (Some 30%Z)) fresh_plugin.

Definition urls (st : Plugin) : list string := map (fun c => url (fst c)) (calls st).

(** The instance after a scan in which the service rejected the key. *)
Definition after_rejection : Plugin :=
  snd (handleEvent rejected name_event configured).

Definition new_key : UserOpts := mkUserOpts (Some "a-new-key") None None None.

End Scenario.

(* ===================================================================== *)
(** ** Vocabulary of the properties *)
(* ===================================================================== *)

(** What [query] makes of a transport answer. *)
Definition is_403 (res : Response) : bool := bool_decide (code res = Some "403").

Definition interpret (res : Response) : json :=
  if is_403 res then JNull
  else if bool_decide (content res = None) || bool_decide (code res = Some "404") then JNull
  else match content res with
       | Some (Json info) => info
       | _ => JNull
       end.

(** The request [query] sends for [qry]. *)
Definition query_request (w : World) (o : Opts) (qry querytype : string) : Request :=
  mkRequest (query_url w qry querytype) (fetchtimeout o) "SpiderFoot"
            [("Accept", "application/json"); ("X-OTX-API-KEY", apikey o)].

(** A request for the reputation of some identifier. *)
Definition reputation_url (u : string) : Prop :=
  ∃ targettype qry, u = base_url +:+ targettype +:+ "/" +:+ qry +:+ "/reputation".

(** The record carries a reputation whose score is a number not below the
    threshold. *)
Definition record_qualifies (o : Opts) (rec : json) : bool :=
  match rec with
  | JDict d =>
      match assoc "reputation" d with
      | Some (JDict rd) =>
          match assoc "threat_score" rd with
          | Some score =>
              match py_lt score (threat_score_min o) with
              | Ok false => true
              | _ => false
              end
          | None => false
          end
      | _ => false
      end
  | _ => false
  end.

(** The transport answer carries such a record. *)
Definition qualifies (o : Opts) (res : Response) : bool :=
  record_qualifies o (interpret res).

(** A finding of one of the malicious-* categories. *)
Definition malicious (f : Finding) : bool :=
  negb (String.eqb (f_type f) "CO_HOSTED_SITE").

Definition malicious_categories : list string :=
  ["MALICIOUS_IPADDR"; "MALICIOUS_AFFILIATE_IPADDR"; "MALICIOUS_INTERNET_NAME";
   "MALICIOUS_AFFILIATE_INTERNET_NAME"; "MALICIOUS_COHOST"].

Definition category_ok (evtType : option string) : Prop :=
  ∀ t, evtType = Some t → t ∈ malicious_categories.

(** A well-formed finding: a produced category, this module as its origin,
    and for a malicious-* finding a description that opens with the score. *)
Definition finding_ok (f : Finding) : Prop :=
  f_type f ∈ producedEvents ∧
  f_module f = self_name ∧
  (malicious f = true → ∃ rest, f_data f = JStr ("Threat Score: " +:+ rest)).

(** The two states agree on everything but the count of clock reads. *)
Definition same_but_clock (st st' : Plugin) : Prop :=
  opts st' = opts st ∧ results st' = results st ∧ errorState st' = errorState st ∧
  calls st' = calls st ∧ emitted st' = emitted st ∧ stop_polls st' = stop_polls st.

(** What any part of [handleEvent] may do to the instance: [st'] comes
    after [st]. *)
Definition extends (st st' : Plugin) : Prop :=
  ∃ (newc : list (Request * Response)) (newf : list Finding),
    calls st' = calls st ++ newc ∧
    emitted st' = emitted st ++ newf ∧
    opts st' = opts st ∧
    (∀ k, is_Some (results st !! k) → is_Some (results st' !! k)) ∧
    (errorState st = true → errorState st' = true) ∧
    (Exists (λ c, is_403 c.2 = true) newc → errorState st' = true) ∧
    Forall (λ c, reputation_url (url c.1)) newc ∧
    Forall finding_ok newf ∧
    (length (filter (λ f, malicious f = true) newf)
     ≤ length (filter (λ c, qualifies (opts st) c.2 = true) newc))%nat.

(** Several setup-and-run cycles on the same instance. *)
Fixpoint cycles (w : World) (cs : list (UserOpts * list SpiderFootEvent))
         (st : Plugin) : Plugin :=
  match cs with
  | [] => st
  | (u, events) :: rest => cycles w rest (run w events (setup u st))
  end.

(** A computation whose final state always comes after its initial one. *)
Definition advances {A} (m : M A) : Prop := ∀ st, extends st (snd (m st)).

(** The entry's name as the loop reads it: [result.get("name", "")], a str. *)
Definition activity_name (e : json) : result string :=
  match py_get e "name" (JStr "") with
  | Ok v => py_as_str v
  | Raise x => Raise x
  end.

(** What the handler does once the event has passed the three guards. *)
Definition handle_fresh (w : World) (event : SpiderFootEvent) : M unit :=
  qrylist <- (if startswith (eventType event) "NETBLOCK_"
              then expand_netblock w (data event)
              else ret [data event]) ;;
  evtType <- (if String.eqb (eventType event) "IP_ADDRESS"
              then passive_dns_block w event ;;; ret (Some "CO_HOSTED_SITE")
              else ret None) ;;
  reputation_loop w event evtType qrylist.

(** The timestamp the loops compute for an entry: the value under [key],
    or the empty string, which has to be a str and to parse in [fmt]. *)
Definition entry_timestamp (w : World) (fmt : TsFormat) (key : string) (e : json)
  : result Z :=
  match py_get e key (JStr "") with
  | Ok v =>
      match py_as_str v with
      | Ok s => match strptime_ts w fmt s with
                | Some t => Ok t
                | None => Raise ValueError
                end
      | Raise x => Raise x
      end
  | Raise x => Raise x
  end.

(** An activity the loop gets through: a dict with a str name and a
    timestamp that parses. *)
Definition good_activity (w : World) (e : json) : Prop :=
  ∃ n t, activity_name e = Ok n ∧ entry_timestamp w FmtActivity "last_date" e = Ok t.

(** The entry [d] has no timestamp under [key], or has a string there that
    the parser rejects. *)
Definition bad_timestamp (w : World) (fmt : TsFormat) (key : string)
           (d : list (string * json)) : Prop :=
  match assoc key d with
  | None => strptime_ts w fmt "" = None
  | Some (JStr s) => strptime_ts w fmt s = None
  | Some _ => False
  end.

(** The identifiers the target loop goes through for an event. *)
Definition targets (w : World) (event : SpiderFootEvent) : list string :=
  if startswith (eventType event) "NETBLOCK_"
  then default [] (IPNetwork w (data event))
  else [data event].

(** The description built for a score and the names of the activities. *)
Definition describe (score : json) (names : list string) : string :=
  ("Threat Score: " +:+ py_str score +:+ ":")
  +:+ String.concat "" (map (λ n, "
 - " +:+ n) names).




(** *** Vocabulary of the further properties *)

(** A computation whose final state is always related by [R] to the state
    it starts in. *)
Definition keeps {A} (R : Plugin → Plugin → Prop) (m : M A) : Prop :=
  ∀ st, R st (snd (m st)).

(** [st'] has the transport calls of [st] and no other. *)
Definition no_call (st st' : Plugin) : Prop := calls st' = calls st.

(** [st'] has the findings of [st] followed by findings that satisfy [P]. *)
Definition emits_only (P : Finding → Prop) (st st' : Plugin) : Prop :=
  ∃ newf, emitted st' = emitted st ++ newf ∧ Forall P newf.

(** A finding made from [ev]: it names [ev] as its source and this module as
    its origin, and it is either a co-hosted site of a plain address or a
    description under the category the chain of conditions gives the type of
    [ev]. *)
Definition from_event (ev : SpiderFootEvent) (f : Finding) : Prop :=
  f_source f = ev ∧
  f_module f = self_name ∧
  ((f_type f = "CO_HOSTED_SITE" ∧ eventType ev = "IP_ADDRESS") ∨
   (dispatch (eventType ev) None = Some (f_type f) ∧ ∃ descr, f_data f = JStr descr)).

(** [st'] has the transport calls of [st] followed by calls that satisfy [P],
    and the same options. *)
Definition calls_only (P : Request * Response → Prop) (st st' : Plugin) : Prop :=
  opts st' = opts st ∧
  ∃ newc, calls st' = calls st ++ newc ∧ Forall P newc.

(** The request asks for the reputation of some identifier and carries the
    credential, the timeout and the user agent as [query] sets them. *)
Definition reputation_request (w : World) (o : Opts) (c : Request * Response) : Prop :=
  ∃ addr, c.1 = query_request w o addr "reputation".

(** The URLs an event makes the handler ask for, in order, when nothing
    cuts the handling short. *)
Definition expected_urls (w : World) (ev : SpiderFootEvent) : list string :=
  (if String.eqb (eventType ev) "IP_ADDRESS"
   then [query_url w (data ev) "passve_dns"] else [])
  ++ map (λ a, query_url w a "reputation") (targets w ev).

(** The state after one more poll of the stop signal. *)
Definition polled (st : Plugin) : Plugin :=
  mkPlugin (opts st) (results st) (errorState st) (calls st) (emitted st)
           (clock_reads st) (S (stop_polls st)).

(** What [query] returns for [addr] when it is called in the state [st]. *)
Definition answer (w : World) (st : Plugin) (addr querytype : string) : json :=
  interpret (fetchUrl w (length (calls st)) (query_request w (opts st) addr querytype)).

(** The state in which the handler enters the target loop for an event that
    is not a netblock: the identifier is in the cache and, for an IP_ADDRESS
    event, the passive-DNS block has run. *)
Definition loop_entry (w : World) (ev : SpiderFootEvent) (st : Plugin) : Plugin :=
  if String.eqb (eventType ev) "IP_ADDRESS"
  then snd (passive_dns_block w ev (mark (data ev) st))
  else mark (data ev) st.

(** The event passes the three guards of the handler, is not a netblock, so
    has its identifier as its only target, its passive-DNS block (run for an
    IP_ADDRESS event only) returns normally, and it is not stopped at the
    head of the loop. *)
Definition reaches_target (w : World) (ev : SpiderFootEvent) (st : Plugin) : Prop :=
  errorState st = false ∧ apikey (opts st) ≠ "" ∧ results st !! data ev = None ∧
  startswith (eventType ev) "NETBLOCK_" = false ∧
  (String.eqb (eventType ev) "IP_ADDRESS" = true →
   fst (passive_dns_block w ev (mark (data ev) st)) = Ok tt) ∧
  checkForStop w (stop_polls (loop_entry w ev st)) = false.

(** From [st] to [st'] the findings added are co-hosted-site findings, none
    of them unless the event is an IP_ADDRESS, followed by [last]. *)
Definition adds_cohosts_and (ev : SpiderFootEvent) (last : list Finding)
           (st st' : Plugin) : Prop :=
  ∃ cohosts, emitted st' = emitted st ++ cohosts ++ last ∧
             Forall (λ f, f_type f = "CO_HOSTED_SITE") cohosts ∧
             (String.eqb (eventType ev) "IP_ADDRESS" = false → cohosts = []).

(** An activity the loop gets through, with the name it reads from it. *)
Definition dated_activity (w : World) (e : json) (n : string) : Prop :=
  activity_name e = Ok n ∧ ∃ t, entry_timestamp w FmtActivity "last_date" e = Ok t.

(** Answers of the reputation query, by what the classification makes of
    them.  JSON that is neither null nor an object. *)
Definition non_object (r : json) : Prop := r ≠ JNull ∧ ∀ d, r ≠ JDict d.

(** An object whose reputation is a non-empty object without a score. *)
Definition lacks_score (r : json) : Prop :=
  ∃ d rd, r = JDict d ∧ assoc "reputation" d = Some (JDict rd) ∧ rd ≠ [] ∧
          assoc "threat_score" rd = None.

(** No answer, or an object whose reputation is absent or falsy. *)
Definition lacks_reputation (r : json) : Prop :=
  r = JNull ∨ ∃ d, r = JDict d ∧ truthy (default JNull (assoc "reputation" d)) = false.

(** An object with a reputation whose integer score [s] is not below the
    threshold of [o] and whose activities, named [names], all have a
    timestamp that parses. *)
Definition qualifying (w : World) (o : Opts) (r : json) (s : Z) (names : list string)
  : Prop :=
  ∃ d rd acts, r = JDict d ∧ assoc "reputation" d = Some (JDict rd) ∧
               assoc "threat_score" rd = Some (JInt s) ∧
               (threat_score_min o ≤ s)%Z ∧
               default (JList []) (assoc "activities" rd) = JList acts ∧
               Forall2 (dated_activity w) acts names.

(** The world [w] once the scan has been asked to stop. *)
Definition stopped (w : World) : World :=
  mkWorld (validIP w) (fetchUrl w) (λ _, true) (IPNetwork w) (time_time w) (strptime_ts w).

(* ===================================================================== *)
(** ** Reasoning about the monad *)
(* ===================================================================== *)

Lemma bind_Ok {A B} (m : M A) (k : A → M B) st a st' :
  m st = (Ok a, st') → bind m k st = k a st'.
Proof. unfold bind. intros ->. reflexivity. Qed.

Lemma bind_Raise {A B} (m : M A) (k : A → M B) st e st' :
  m st = (Raise e, st') → bind m k st = (Raise e, st').
Proof. unfold bind. intros ->. reflexivity. Qed.

Lemma bind_inv_Ok {A B} (m : M A) (k : A → M B) st b st' :
  bind m k st = (Ok b, st') → ∃ a st1, m st = (Ok a, st1) ∧ k a st1 = (Ok b, st').
Proof.
  unfold bind. destruct (m st) as [[a|e] st1]; intros H.
  - eauto.
  - discriminate.
Qed.

Lemma query_eq w qry querytype st :
  query w qry querytype st =
  let rq := query_request w (opts st) qry querytype in
  let res := fetchUrl w (length (calls st)) rq in
  (Ok (interpret res),
   mkPlugin (opts st) (results st) (errorState st || is_403 res)
            (calls st ++ [(rq, res)]) (emitted st) (clock_reads st) (stop_polls st)).
Proof.
  unfold query, bind, gets, do_fetch, query_request, interpret, is_403; simpl.
  set (res := fetchUrl w _ _).
  destruct (bool_decide (code res = Some "403")); simpl.
  - rewrite orb_true_r. reflexivity.
  - rewrite orb_false_r.
    destruct (bool_decide (content res = None) || bool_decide (code res = Some "404")); simpl.
    + reflexivity.
    + destruct (content res) as [[raw|info]|]; reflexivity.
Qed.

Lemma query_url_reputation w qry : reputation_url (query_url w qry "reputation").
Proof. unfold query_url, reputation_url. simpl. eauto. Qed.

(** The misspelt kind is not one of the two known kinds, so it is replaced. *)
Lemma query_url_passve_dns w qry :
  query_url w qry "passve_dns" = query_url w qry "reputation".
Proof. reflexivity. Qed.

Lemma string_app_assoc (a b c : string) : (a +:+ b) +:+ c = a +:+ (b +:+ c).
Proof.
  induction a as [|ch a IH]; [reflexivity|].
  change (String ch ((a +:+ b) +:+ c) = String ch (a +:+ (b +:+ c))).
  now rewrite IH.
Qed.

Lemma string_app_nil_r (a : string) : a +:+ "" = a.
Proof.
  induction a as [|ch a IH]; [reflexivity|].
  change (String ch (a +:+ "") = String ch a).
  now rewrite IH.
Qed.

(** *** The relation [extends] *)

Lemma extends_refl st : extends st st.
Proof.
  exists [], []. rewrite !app_nil_r.
  repeat split; auto.
  - intros H. inversion H.
Qed.

Lemma extends_trans st1 st2 st3 :
  extends st1 st2 → extends st2 st3 → extends st1 st3.
Proof.
  intros (c1 & f1 & Hc1 & Hf1 & Ho1 & Hr1 & He1 & Hx1 & Hu1 & Hk1 & Hn1)
         (c2 & f2 & Hc2 & Hf2 & Ho2 & Hr2 & He2 & Hx2 & Hu2 & Hk2 & Hn2).
  exists (c1 ++ c2), (f1 ++ f2).
  rewrite Ho1 in Hn2.
  repeat split.
  - rewrite Hc2, Hc1, <- List.app_assoc. reflexivity.
  - rewrite Hf2, Hf1, <- List.app_assoc. reflexivity.
  - congruence.
  - auto.
  - auto.
  - intros [H|H]%Exists_app; auto.
  - apply Forall_app; auto.
  - apply Forall_app; auto.
  - rewrite !filter_app, !length_app. lia.
Qed.

Lemma advances_ret {A} (a : A) : advances (ret a).
Proof. intros st. apply extends_refl. Qed.

Lemma advances_raise {A} e : advances (@raise A e).
Proof. intros st. apply extends_refl. Qed.

Lemma advances_lift {A} (r : result A) : advances (lift r).
Proof. intros st. apply extends_refl. Qed.

Lemma advances_gets {A} (f : Plugin → A) : advances (gets f).
Proof. intros st. apply extends_refl. Qed.

Lemma advances_bind {A B} (m : M A) (k : A → M B) :
  advances m → (∀ a, advances (k a)) → advances (bind m k).
Proof.
  intros Hm Hk st. unfold bind. specialize (Hm st).
  destruct (m st) as [[a|e] st1]; simpl in *.
  - eapply extends_trans; [exact Hm | apply Hk].
  - exact Hm.
Qed.

(** A step that leaves calls, findings and options alone, never clears the
    flag and never forgets an identifier. *)
Lemma extends_quiet st st' :
  calls st' = calls st → emitted st' = emitted st → opts st' = opts st →
  (∀ k, is_Some (results st !! k) → is_Some (results st' !! k)) →
  (errorState st = true → errorState st' = true) →
  extends st st'.
Proof.
  intros Hc Hf Ho Hr He. exists [], []. rewrite !app_nil_r.
  repeat split; auto.
  intros H. inversion H.
Qed.

Lemma advances_do_time w : advances (do_time w).
Proof. intros st. apply extends_quiet; auto. Qed.

Lemma advances_do_checkForStop w : advances (do_checkForStop w).
Proof. intros st. apply extends_quiet; auto. Qed.

Lemma advances_set_errorState : advances (modify (set_errorState true)).
Proof. intros st. apply extends_quiet; auto. Qed.

Lemma mark_results k st j :
  is_Some (results st !! j) → is_Some (results (mark k st) !! j).
Proof.
  simpl. intros H. destruct (decide (k = j)) as [->|Hne].
  - rewrite lookup_insert_eq. eauto.
  - rewrite lookup_insert_ne by done. exact H.
Qed.

Lemma advances_mark k : advances (modify (mark k)).
Proof. intros st. apply extends_quiet; auto. apply mark_results. Qed.

Lemma foldl_mark_keeps ips : ∀ st k,
  results st !! k = Some true →
  results (foldl (λ s ip, mark ip s) st ips) !! k = Some true.
Proof.
  induction ips as [|ip ips IH]; intros st k H; simpl; [exact H|].
  apply IH. simpl. destruct (decide (ip = k)) as [->|Hne].
  - apply lookup_insert_eq.
  - rewrite lookup_insert_ne by done. exact H.
Qed.

Lemma foldl_mark_fields ips : ∀ st,
  let st' := foldl (λ s ip, mark ip s) st ips in
  opts st' = opts st ∧ errorState st' = errorState st ∧ calls st' = calls st ∧
  emitted st' = emitted st ∧ clock_reads st' = clock_reads st ∧
  stop_polls st' = stop_polls st ∧
  (∀ k, is_Some (results st !! k) → is_Some (results st' !! k)) ∧
  (∀ ip, ip ∈ ips → results st' !! ip = Some true).
Proof.
  induction ips as [|ip ips IH]; intros st; simpl.
  - repeat split; auto. intros ip H. inversion H.
  - destruct (IH (mark ip st)) as (Ho & He & Hc & Hf & Hk & Hp & Hr & Hm).
    repeat split; auto.
    + intros k H. apply Hr, mark_results, H.
    + intros j Hj. apply elem_of_cons in Hj as [Hj|Hj]; [subst j|auto].
      apply foldl_mark_keeps. simpl. apply lookup_insert_eq.
Qed.

(** Membership in a list written out. *)
Ltac in_list :=
  repeat first [apply list_elem_of_here | apply list_elem_of_further].

(** *** The transport *)

Lemma query_url_kind w qry querytype :
  querytype ≠ "passive_dns" → reputation_url (query_url w qry querytype).
Proof.
  intros Hk. unfold query_url. cbv zeta. case_bool_decide as Hin.
  - apply elem_of_cons in Hin as [->|Hin]; [done|].
    apply list_elem_of_singleton in Hin as ->. eexists _, _. reflexivity.
  - eexists _, _. reflexivity.
Qed.

Lemma advances_query w qry querytype :
  querytype ≠ "passive_dns" → advances (query w qry querytype).
Proof.
  intros Hk st. rewrite query_eq. cbv zeta. simpl.
  eexists [_], []. simpl. rewrite app_nil_r.
  repeat split; auto.
  - intros ->. reflexivity.
  - intros H. apply Exists_cons in H as [H|H]; [|inversion H].
    simpl in H. rewrite H. apply orb_true_r.
  - constructor; [|constructor]. simpl. apply query_url_kind, Hk.
  - lia.
Qed.

Lemma advances_do_strptime w fmt v : advances (do_strptime w fmt v).
Proof.
  unfold do_strptime. apply advances_bind; [apply advances_lift|].
  intros s. destruct (strptime_ts w fmt s); [apply advances_ret|apply advances_raise].
Qed.

Lemma advances_notify_cohost host event :
  advances (notifyListeners (mkFinding "CO_HOSTED_SITE" host self_name event)).
Proof.
  intros st. eexists [], [_]. simpl. rewrite app_nil_r.
  repeat split; auto.
  - intros H. inversion H.
  - constructor; [|constructor]. repeat split.
    + simpl. unfold producedEvents. in_list.
    + simpl. discriminate.
Qed.

Lemma advances_expand_netblock w eventData : advances (expand_netblock w eventData).
Proof.
  unfold expand_netblock. destruct (IPNetwork w eventData) as [ips|].
  - apply advances_bind; [|intros; apply advances_ret].
    intros st. simpl.
    destruct (foldl_mark_fields ips st) as (Ho & He & Hc & Hf & _ & _ & Hr & _).
    apply extends_quiet; auto. congruence.
  - apply advances_raise.
Qed.

(** One step of a proof that a computation [advances]. *)
Ltac advances_step :=
  first
    [ apply advances_ret | apply advances_raise | apply advances_lift
    | apply advances_gets | apply advances_do_time | apply advances_do_checkForStop
    | apply advances_set_errorState | apply advances_mark
    | apply advances_do_strptime | apply advances_notify_cohost
    | apply advances_expand_netblock
    | apply advances_query; discriminate
    | apply advances_bind; [|intros ?]
    | match goal with |- advances (if ?b then _ else _) => destruct b end
    | match goal with |- advances (match ?x with _ => _ end) => destruct x end ].

Lemma advances_passive_dns_entry w event rec :
  advances (passive_dns_entry w event "CO_HOSTED_SITE" rec).
Proof. unfold passive_dns_entry. repeat advances_step. Qed.

Lemma advances_passive_dns_loop w event res :
  advances (passive_dns_loop w event "CO_HOSTED_SITE" res).
Proof.
  induction res as [|rec rest IH]; simpl.
  - apply advances_ret.
  - apply advances_bind; [apply advances_passive_dns_entry|intros; exact IH].
Qed.

Lemma advances_passive_dns_block w event : advances (passive_dns_block w event).
Proof.
  unfold passive_dns_block. cbv zeta.
  apply advances_bind; [apply advances_query; discriminate|].
  intros r.
  assert (H : advances (has <- lift (py_in "passve_dns" r) ;;
                        if has
                        then res <- lift (py_getitem r "passive_dns") ;;
                             recs <- lift (py_iter res) ;;
                             passive_dns_loop w event "CO_HOSTED_SITE" recs
                        else ret tt)).
  { apply advances_bind; [apply advances_lift|]. intros [|]; [|apply advances_ret].
    apply advances_bind; [apply advances_lift|]. intros res.
    apply advances_bind; [apply advances_lift|]. intros recs.
    apply advances_passive_dns_loop. }
  destruct r; first [apply advances_ret | exact H].
Qed.

(** *** The activity loop *)

Lemma same_but_clock_refl st : same_but_clock st st.
Proof. repeat split. Qed.

Lemma same_but_clock_trans st1 st2 st3 :
  same_but_clock st1 st2 → same_but_clock st2 st3 → same_but_clock st1 st3.
Proof. unfold same_but_clock. intuition congruence. Qed.

(** Unfold the monad and split on whatever the computation inspects. *)
Ltac run_monad :=
  cbv [bind lift gets ret raise modify do_strptime do_time]; simpl;
  repeat (match goal with
          | |- context [match ?x with _ => _ end] =>
              lazymatch x with
              | context [match _ with _ => _ end] => fail
              | _ => destruct x eqn:?; simpl
              end
          end).

Lemma activity_entry_spec w descr e st :
  same_but_clock st (snd (activity_entry w descr e st)) ∧
  ∀ d' st', activity_entry w descr e st = (Ok d', st') →
            ∃ n, activity_name e = Ok n ∧ d' = descr +:+ ("
 - " +:+ n).
Proof.
  unfold activity_entry, activity_name.
  destruct (py_get e "name" (JStr "")) as [v|x];
    [|split; [apply same_but_clock_refl|intros ? ? [=]]].
  destruct (py_as_str v) as [n|x] eqn:Hn.
  2:{ unfold bind, lift. simpl. rewrite Hn.
      split; [apply same_but_clock_refl|intros ? ? [=]]. }
  unfold bind, lift. simpl. rewrite Hn.
  split.
  - run_monad; repeat split.
  - intros d' st'. run_monad; intros [= <- <-]; eauto.
Qed.

Lemma activity_loop_spec w history : ∀ descr st,
  same_but_clock st (snd (activity_loop w descr history st)) ∧
  ∀ d' st', activity_loop w descr history st = (Ok d', st') →
            ∃ names, Forall2 (λ e n, activity_name e = Ok n) history names ∧
                     d' = descr +:+ String.concat "" (map (λ n, "
 - " +:+ n) names).
Proof.
  induction history as [|e rest IH]; intros descr st; simpl.
  - split; [apply same_but_clock_refl|].
    intros d' st' [= <- <-]. exists []. split; [constructor|].
    simpl. now rewrite string_app_nil_r.
  - destruct (activity_entry_spec w descr e st) as [Hs He].
    unfold bind. destruct (activity_entry w descr e st) as [[d1|x] st1]; simpl in *.
    + destruct (IH d1 st1) as [Hs1 He1]. split.
      * eapply same_but_clock_trans; eauto.
      * intros d' st' Hrun. destruct (He d1 st1 eq_refl) as (n & Hn & ->).
        destruct (He1 d' st' Hrun) as (names & Hnames & ->).
        exists (n :: names). split; [constructor; auto|].
        rewrite string_app_assoc. f_equal.
        destruct names; simpl; [now rewrite string_app_nil_r|reflexivity].
    + split; [exact Hs|discriminate].
Qed.

(** *** Classification of one record *)

Lemma classify_spec w ev t rec st :
  let st' := snd (classify w ev t rec st) in
  opts st' = opts st ∧ results st' = results st ∧ errorState st' = errorState st ∧
  calls st' = calls st ∧
  (emitted st' = emitted st ∨
   (record_qualifies (opts st) rec = true ∧
    ∃ c rest, t = Some c ∧
      emitted st' =
      emitted st ++ [mkFinding c (JStr ("Threat Score: " +:+ rest)) self_name ev])).
Proof.
  unfold classify, record_qualifies, notifyListeners.
  destruct rec; run_monad.
  all: simpl in *; try discriminate.
  all: repeat match goal with
              | H : assoc ?k ?l = _, H' : context [assoc ?k ?l] |- _ => rewrite H in H'
              end.
  all: simplify_eq/=.
  all: try congruence.
  all: try match goal with
           | H : activity_loop _ ?d ?h ?s = (_, _) |- _ =>
               let Hs := fresh "Hs" in
               let Hd := fresh "Hd" in
               destruct (activity_loop_spec w h d s) as [Hs Hd];
               rewrite H in Hs, Hd; simpl in Hs;
               destruct Hs as (? & ? & ? & ? & ? & ?)
           end.
  all: repeat split; try congruence.
  all: try (left; congruence).
  all: right; split; [reflexivity|].
  all: destruct (Hd _ _ eq_refl) as (names & _ & ->).
  all: eexists _, _; split; [reflexivity|].
  all: rewrite string_app_assoc.
  all: match goal with H : emitted _ = emitted _ |- _ => rewrite H end.
  all: reflexivity.
Qed.

(** *** The role-to-category dispatch *)

Lemma dispatch_category_ok eventName t :
  category_ok t → category_ok (dispatch eventName t).
Proof.
  unfold dispatch, category_ok, malicious_categories. intros Ht c.
  repeat match goal with
         | |- context [if ?b then _ else _] => destruct b
         end;
    intros H; first [apply Ht, H | injection H as <-; in_list].
Qed.

Lemma category_ok_None : category_ok None.
Proof. intros c H. discriminate. Qed.

Lemma dispatch_ip_address eventName t :
  String.eqb eventName "IP_ADDRESS" = true →
  dispatch eventName t = Some "MALICIOUS_IPADDR".
Proof. intros ->%String.eqb_eq. reflexivity. Qed.

Lemma category_ok_finding t c rest ev :
  category_ok t → t = Some c →
  let f := mkFinding c (JStr ("Threat Score: " +:+ rest)) self_name ev in
  finding_ok f ∧ malicious f = true.
Proof.
  intros Ht Hc. specialize (Ht c Hc).
  unfold malicious_categories in Ht. simpl.
  assert (Hm : malicious (mkFinding c (JStr ("Threat Score: " +:+ rest)) self_name ev) = true).
  { unfold malicious. simpl.
    repeat (apply elem_of_cons in Ht as [->|Ht]; [reflexivity|]). inversion Ht. }
  split; [|exact Hm].
  repeat split; simpl; eauto.
  unfold producedEvents.
  repeat (apply elem_of_cons in Ht as [->|Ht]; [in_list|]). inversion Ht.
Qed.

(** *** The target loop and the handler *)

Lemma advances_reputation_target w ev t addr :
  category_ok t → advances (reputation_target w ev t addr).
Proof.
  intros Hcat st. unfold reputation_target, bind. rewrite query_eq. cbv zeta.
  set (rq := query_request w (opts st) addr "reputation").
  set (res := fetchUrl w (length (calls st)) rq).
  set (st1 := mkPlugin _ _ _ _ _ _ _).
  destruct (classify_spec w ev t (interpret res) st1) as (Ho & Hr & He & Hc & Hem).
  set (st' := snd (classify w ev t (interpret res) st1)) in *.
  simpl in Ho, Hr, He, Hc, Hem.
  assert (Hkind : reputation_url (url rq)) by apply query_url_reputation.
  assert (H403 : is_403 res = true → errorState st' = true).
  { intros H. rewrite He, H. apply orb_true_r. }
  destruct Hem as [Hem | (Hq & c & rest & Ht & Hem)].
  - exists [(rq, res)], []. rewrite app_nil_r.
    repeat split; auto.
    + intros k. rewrite Hr. auto.
    + intros H. rewrite He, H. reflexivity.
    + intros H. apply Exists_cons in H as [H|H]; [auto|inversion H].
    + simpl. lia.
  - destruct (category_ok_finding t c rest ev Hcat Ht) as [Hok Hm].
    eexists [(rq, res)], [_].
    repeat split; eauto.
    + intros k. rewrite Hr. auto.
    + intros H. rewrite He, H. reflexivity.
    + intros H. apply Exists_cons in H as [H|H]; [auto|inversion H].
    + rewrite filter_cons_True by exact Hm.
      rewrite filter_cons_True by exact Hq.
      simpl. lia.
Qed.

Lemma advances_reputation_loop w ev qrylist : ∀ t,
  category_ok (dispatch (eventType ev) t) →
  advances (reputation_loop w ev t qrylist).
Proof.
  induction qrylist as [|addr rest IH]; intros t Hcat; simpl.
  - apply advances_ret.
  - apply advances_bind; [apply advances_do_checkForStop|].
    intros [|]; [apply advances_ret|].
    apply advances_bind; [apply advances_reputation_target, Hcat|].
    intros _. apply IH, dispatch_category_ok, Hcat.
Qed.

Lemma advances_handleEvent w ev : advances (handleEvent w ev).
Proof.
  unfold handleEvent. cbv zeta.
  apply advances_bind; [apply advances_gets|]. intros [|]; [apply advances_ret|].
  apply advances_bind; [apply advances_gets|]. intros o.
  destruct (String.eqb (apikey o) "").
  { apply advances_bind; [apply advances_set_errorState|intros; apply advances_ret]. }
  apply advances_bind; [apply advances_gets|]. intros seen.
  destruct (bool_decide (is_Some (seen !! data ev))); [apply advances_ret|].
  apply advances_bind; [apply advances_mark|]. intros _.
  apply advances_bind.
  { destruct (startswith (eventType ev) "NETBLOCK_");
      [apply advances_expand_netblock|apply advances_ret]. }
  intros qrylist.
  destruct (String.eqb (eventType ev) "IP_ADDRESS") eqn:Hip.
  - apply advances_bind.
    { apply advances_bind; [apply advances_passive_dns_block|intros; apply advances_ret]. }
    intros t. apply advances_reputation_loop.
    rewrite (dispatch_ip_address _ _ Hip). intros c [= <-].
    unfold malicious_categories. in_list.
  - intros st. change (extends st (snd (reputation_loop w ev None qrylist st))).
    apply advances_reputation_loop, dispatch_category_ok, category_ok_None.
Qed.

Lemma extends_run w events : ∀ st, extends st (run w events st).
Proof.
  induction events as [|e rest IH]; intros st; simpl.
  - apply extends_refl.
  - eapply extends_trans; [apply advances_handleEvent|apply IH].
Qed.

(** *** The guards at the head of the handler *)

Lemma handleEvent_errorState w ev st :
  errorState st = true → handleEvent w ev st = (Ok tt, st).
Proof. intros H. unfold handleEvent, bind, gets. simpl. rewrite H. reflexivity. Qed.

Lemma handleEvent_no_key w ev st :
  errorState st = false → apikey (opts st) = "" →
  handleEvent w ev st = (Ok tt, set_errorState true st).
Proof.
  intros He Hk. unfold handleEvent, bind, gets. simpl. rewrite He, Hk. reflexivity.
Qed.

Lemma handleEvent_seen w ev st :
  errorState st = false → apikey (opts st) ≠ "" → is_Some (results st !! data ev) →
  handleEvent w ev st = (Ok tt, st).
Proof.
  intros He Hk Hs. unfold handleEvent, bind, gets. simpl. rewrite He.
  apply String.eqb_neq in Hk. rewrite Hk.
  rewrite bool_decide_eq_true_2 by exact Hs. reflexivity.
Qed.

Lemma handleEvent_fresh w ev st :
  errorState st = false → apikey (opts st) ≠ "" → results st !! data ev = None →
  handleEvent w ev st = handle_fresh w ev (mark (data ev) st).
Proof.
  intros He Hk Hs. unfold handleEvent, handle_fresh, bind at 1 2 3 4, gets, modify.
  simpl. rewrite He. apply String.eqb_neq in Hk. rewrite Hk.
  rewrite bool_decide_eq_false_2; [reflexivity|].
  rewrite Hs. intros [x Hx]. discriminate.
Qed.

Lemma advances_handle_fresh w ev : advances (handle_fresh w ev).
Proof.
  unfold handle_fresh.
  apply advances_bind.
  { destruct (startswith (eventType ev) "NETBLOCK_");
      [apply advances_expand_netblock|apply advances_ret]. }
  intros qrylist.
  destruct (String.eqb (eventType ev) "IP_ADDRESS") eqn:Hip.
  - apply advances_bind.
    { apply advances_bind; [apply advances_passive_dns_block|intros; apply advances_ret]. }
    intros t. apply advances_reputation_loop.
    rewrite (dispatch_ip_address _ _ Hip). intros c [= <-].
    unfold malicious_categories. in_list.
  - intros st1. change (extends st1 (snd (reputation_loop w ev None qrylist st1))).
    apply advances_reputation_loop, dispatch_category_ok, category_ok_None.
Qed.

(** An event that meets one of the three guards is dropped: no transport
    call and no finding. *)
Lemma handleEvent_dropped w ev st :
  errorState st = true ∨ apikey (opts st) = "" ∨ is_Some (results st !! data ev) →
  fst (handleEvent w ev st) = Ok tt ∧
  calls (snd (handleEvent w ev st)) = calls st ∧
  emitted (snd (handleEvent w ev st)) = emitted st.
Proof.
  intros H. destruct (errorState st) eqn:He.
  { rewrite handleEvent_errorState by exact He. auto. }
  destruct (decide (apikey (opts st) = "")) as [Hk|Hk].
  { rewrite handleEvent_no_key by assumption. auto. }
  destruct H as [H|[H|H]]; [discriminate|contradiction|].
  rewrite handleEvent_seen by assumption. auto.
Qed.

Lemma run_errorState w events : ∀ st, errorState st = true → run w events st = st.
Proof.
  induction events as [|e rest IH]; intros st H; simpl; [reflexivity|].
  rewrite handleEvent_errorState by exact H. simpl. apply IH, H.
Qed.

Lemma setup_errorState u st : errorState (setup u st) = errorState st.
Proof. reflexivity. Qed.

Lemma cycles_errorState w cs : ∀ st,
  errorState st = true →
  errorState (cycles w cs st) = true ∧
  calls (cycles w cs st) = calls st ∧
  emitted (cycles w cs st) = emitted st.
Proof.
  induction cs as [|[u events] rest IH]; intros st H; simpl; [auto|].
  rewrite run_errorState by exact H.
  destruct (IH (setup u st) H) as (He & Hc & Hf). auto.
Qed.

(** *** Relations every part of the handler keeps *)

Section Frame.
Variable w : World.
Variable ev : SpiderFootEvent.
Variable R : Plugin → Plugin → Prop.
Hypothesis R_refl : ∀ st, R st st.
Hypothesis R_trans : ∀ a b c, R a b → R b c → R a c.
Hypothesis R_time : keeps R (do_time w).
Hypothesis R_poll : keeps R (do_checkForStop w).
Hypothesis R_mark : ∀ k, keeps R (modify (mark k)).
Hypothesis R_flag : keeps R (modify (set_errorState true)).
Hypothesis R_query : ∀ qry k, k ≠ "passive_dns" → keeps R (query w qry k).
Hypothesis R_cohost :
  String.eqb (eventType ev) "IP_ADDRESS" = true →
  ∀ host, keeps R (notifyListeners (mkFinding "CO_HOSTED_SITE" host self_name ev)).
Hypothesis R_malicious :
  ∀ c descr, dispatch (eventType ev) None = Some c →
             keeps R (notifyListeners (mkFinding c (JStr descr) self_name ev)).

Lemma keeps_ret {A} (a : A) : keeps R (ret a).
Proof. intros st. apply R_refl. Qed.

Lemma keeps_raise {A} e : keeps R (@raise A e).
Proof. intros st. apply R_refl. Qed.

Lemma keeps_lift {A} (r : result A) : keeps R (lift r).
Proof. intros st. apply R_refl. Qed.

Lemma keeps_gets {A} (f : Plugin → A) : keeps R (gets f).
Proof. intros st. apply R_refl. Qed.

Lemma keeps_bind {A B} (m : M A) (k : A → M B) :
  keeps R m → (∀ a, keeps R (k a)) → keeps R (bind m k).
Proof.
  intros Hm Hk st. unfold bind. specialize (Hm st).
  destruct (m st) as [[a|e] st1]; simpl in *.
  - eapply R_trans; [exact Hm | apply Hk].
  - exact Hm.
Qed.

Lemma keeps_do_strptime fmt v : keeps R (do_strptime w fmt v).
Proof.
  unfold do_strptime. apply keeps_bind; [apply keeps_lift|].
  intros s. destruct (strptime_ts w fmt s); [apply keeps_ret|apply keeps_raise].
Qed.

Lemma keeps_expand_netblock eventData : keeps R (expand_netblock w eventData).
Proof.
  unfold expand_netblock. destruct (IPNetwork w eventData) as [ips|];
    [|apply keeps_raise].
  apply keeps_bind; [|intros; apply keeps_ret].
  intros st. unfold modify. simpl. revert st.
  induction ips as [|ip ips IH]; intros st; simpl; [apply R_refl|].
  eapply R_trans; [apply (R_mark ip st)|apply IH].
Qed.

Ltac keeps_step :=
  first
    [ apply keeps_ret | apply keeps_raise | apply keeps_lift | apply keeps_gets
    | apply R_time | apply R_poll | apply R_mark | apply R_flag
    | apply R_query; discriminate
    | apply keeps_do_strptime | apply keeps_expand_netblock
    | apply keeps_bind; [|intros ?]
    | match goal with |- keeps R (if ?b then _ else _) => destruct b end
    | match goal with |- keeps R (match ?x with _ => _ end) => destruct x end ].

Lemma keeps_passive_dns_loop res :
  String.eqb (eventType ev) "IP_ADDRESS" = true →
  keeps R (passive_dns_loop w ev "CO_HOSTED_SITE" res).
Proof.
  intros Hip. induction res as [|rec rest IH]; simpl; [apply keeps_ret|].
  apply keeps_bind; [|intros; exact IH].
  unfold passive_dns_entry. repeat first [apply R_cohost; exact Hip | keeps_step].
Qed.

(** What the block does with the answer [r] of its query. *)
Lemma keeps_passive_dns_answer (r : json) :
  String.eqb (eventType ev) "IP_ADDRESS" = true →
  keeps R (match r with
           | JNull => ret tt
           | _ =>
               has <- lift (py_in "passve_dns" r) ;;
               if has
               then res <- lift (py_getitem r "passive_dns") ;;
                    recs <- lift (py_iter res) ;;
                    passive_dns_loop w ev "CO_HOSTED_SITE" recs
               else ret tt
           end).
Proof.
  intros Hip.
  assert (H : keeps R (has <- lift (py_in "passve_dns" r) ;;
                       if has
                       then res <- lift (py_getitem r "passive_dns") ;;
                            recs <- lift (py_iter res) ;;
                            passive_dns_loop w ev "CO_HOSTED_SITE" recs
                       else ret tt)).
  { apply keeps_bind; [apply keeps_lift|]. intros [|]; [|apply keeps_ret].
    apply keeps_bind; [apply keeps_lift|]. intros res.
    apply keeps_bind; [apply keeps_lift|]. intros recs.
    apply keeps_passive_dns_loop, Hip. }
  destruct r; first [apply keeps_ret | exact H].
Qed.

Lemma keeps_passive_dns_block :
  String.eqb (eventType ev) "IP_ADDRESS" = true →
  keeps R (passive_dns_block w ev).
Proof.
  intros Hip. unfold passive_dns_block. cbv zeta.
  apply keeps_bind; [apply R_query; discriminate|]. intros r.
  apply keeps_passive_dns_answer, Hip.
Qed.

Lemma keeps_activity_loop history : ∀ descr, keeps R (activity_loop w descr history).
Proof.
  induction history as [|e rest IH]; intros descr; simpl; [apply keeps_ret|].
  apply keeps_bind; [|intros; apply IH].
  unfold activity_entry. repeat keeps_step.
Qed.

Lemma keeps_classify t rec :
  (∀ c, t = Some c → dispatch (eventType ev) None = Some c) →
  keeps R (classify w ev t rec).
Proof.
  intros Ht. unfold classify.
  destruct rec;
    repeat first [apply keeps_activity_loop
                 | match goal with
                   | |- keeps R (match t with _ => _ end) =>
                       destruct t as [c|];
                       [apply R_malicious, Ht; reflexivity|apply keeps_raise]
                   end
                 | keeps_step].
Qed.

Lemma dispatch_idempotent eventName t :
  dispatch eventName (dispatch eventName t) = dispatch eventName t.
Proof.
  unfold dispatch.
  repeat match goal with
         | |- context [if ?b then _ else _] => destruct b
         end; reflexivity.
Qed.

Lemma keeps_reputation_loop qrylist : ∀ t,
  dispatch (eventType ev) t = dispatch (eventType ev) None →
  keeps R (reputation_loop w ev t qrylist).
Proof.
  induction qrylist as [|addr rest IH]; intros t Ht; simpl; [apply keeps_ret|].
  apply keeps_bind; [apply R_poll|]. intros [|]; [apply keeps_ret|].
  apply keeps_bind.
  - unfold reputation_target. apply keeps_bind; [apply R_query; discriminate|].
    intros rec.
    apply keeps_classify. intros c Hc. rewrite <- Ht. exact Hc.
  - intros _. apply IH. rewrite dispatch_idempotent. exact Ht.
Qed.

Lemma keeps_handle_fresh : keeps R (handle_fresh w ev).
Proof.
  unfold handle_fresh.
  apply keeps_bind.
  { destruct (startswith (eventType ev) "NETBLOCK_");
      [apply keeps_expand_netblock|apply keeps_ret]. }
  intros qrylist.
  case_eq (String.eqb (eventType ev) "IP_ADDRESS"); intros Hip.
  - apply keeps_bind.
    { apply keeps_bind; [apply keeps_passive_dns_block, Hip|intros; apply keeps_ret]. }
    intros t. apply keeps_reputation_loop.
    rewrite !(dispatch_ip_address _ _ Hip). reflexivity.
  - intros st. change (R st (snd (reputation_loop w ev None qrylist st))).
    apply keeps_reputation_loop. reflexivity.
Qed.

Lemma keeps_handleEvent : keeps R (handleEvent w ev).
Proof.
  intros st.
  destruct (errorState st) eqn:He.
  { rewrite handleEvent_errorState by exact He. apply R_refl. }
  destruct (decide (apikey (opts st) = "")) as [Hk|Hk].
  { rewrite handleEvent_no_key by assumption. apply (R_flag st). }
  destruct (results st !! data ev) as [b|] eqn:Hs.
  { rewrite handleEvent_seen by (try assumption; rewrite Hs; eauto). apply R_refl. }
  rewrite handleEvent_fresh by assumption.
  eapply R_trans; [apply (R_mark (data ev) st)|apply keeps_handle_fresh].
Qed.

End Frame.

(** *** Which answer a finding reports *)












(* ===================================================================== *)
(** ** The claims *)
(* ===================================================================== *)

Import Fixture Scenario.

(** *** C9: an empty credential *)

(** C9.  With the credential the empty string, the first event of a run
    (error flag still clear) is dropped without a transport call or a
    finding and sets the error flag; after it and any later events of the
    run the flag is set and no transport call and no finding has been made. *)
Theorem empty_credential_drops_every_event
        (w : World) (st : Plugin) (ev : SpiderFootEvent) (later : list SpiderFootEvent) :
  apikey (opts st) = "" →
  errorState st = false →
  handleEvent w ev st = (Ok tt, set_errorState true st) ∧
  errorState (run w (ev :: later) st) = true ∧
  calls (run w (ev :: later) st) = calls st ∧
  emitted (run w (ev :: later) st) = emitted st.
Proof.
  intros Hk He.
  assert (Hfirst := handleEvent_no_key w ev st He Hk).
  split; [exact Hfirst|].
  simpl. rewrite Hfirst. simpl.
  rewrite run_errorState by reflexivity. auto.
Qed.

Lemma empty_credential_drops_every_event_witness :
  handleEvent stale_activity name_event unconfigured
  = (Ok tt, set_errorState true unconfigured) ∧
  errorState (run stale_activity [name_event; ipv6_event; affiliate_event] unconfigured) = true ∧
  calls (run stale_activity [name_event; ipv6_event; affiliate_event] unconfigured)
  = calls unconfigured ∧
  emitted (run stale_activity [name_event; ipv6_event; affiliate_event] unconfigured)
  = emitted unconfigured.
Proof.
  apply (empty_credential_drops_every_event
           stale_activity unconfigured name_event [ipv6_event; affiliate_event]);
    reflexivity.
Defined.

(** *** C10: the error flag and [setup] *)

(** C10.  [setup] gives the instance a fresh dedup cache and the merged
    options and leaves the error flag as it finds it.  So once the flag is
    set, it is still set after [setup]; an event handled then is dropped
    without a word; and through any number of setup-and-run cycles on the
    instance no transport call and no finding is made. *)
Theorem error_flag_survives_setup
        (w : World) (st : Plugin) (u : UserOpts) (ev : SpiderFootEvent)
        (cs : list (UserOpts * list SpiderFootEvent)) :
  errorState st = true →
  results (setup u st) = ∅ ∧
  opts (setup u st) = merge_opts u (opts st) ∧
  errorState (setup u st) = true ∧
  handleEvent w ev (setup u st) = (Ok tt, setup u st) ∧
  errorState (cycles w cs st) = true ∧
  calls (cycles w cs st) = calls st ∧
  emitted (cycles w cs st) = emitted st.
Proof.
  intros He.
  split; [reflexivity|]. split; [reflexivity|]. split; [exact He|].
  split; [apply handleEvent_errorState; exact He|].
  apply cycles_errorState, He.
Qed.

Lemma error_flag_survives_setup_witness :
  errorState after_rejection = true ∧
  errorState (setup new_key after_rejection) = true ∧
  calls (cycles stale_activity
           [(new_key, [name_event; affiliate_event])]
           after_rejection)
  = calls after_rejection.
Proof.
  assert (He : errorState after_rejection = true) by reflexivity.
  split; [exact He|].
  destruct (error_flag_survives_setup
              stale_activity after_rejection
              new_key name_event
              [(new_key, [name_event; affiliate_event])]
              He)
    as (_ & _ & Hs & _ & _ & Hc & _).
  split; [exact Hs|exact Hc].
Defined.

(** *** C5: a rejected credential *)

Lemma existsb_Exists {A} (f : A → bool) (l : list A) :
  existsb f l = true → Exists (λ x, f x = true) l.
Proof.
  intros (x & Hin & Hx)%existsb_exists.
  apply Exists_exists. exists x. split; [apply list_elem_of_In, Hin|exact Hx].
Qed.

(** The claim fails for the targets that remain in the event being handled:
    the key is rejected on the first member of the netblock and the second
    member is queried all the same. *)
Lemma rejected_key_does_not_stop_the_event :
  map (λ c, (url c.1, code c.2))
      (calls (snd (handleEvent rejected netblock_event configured)))
  = [(reputation_of "10.0.0.0", Some "403"); (reputation_of "10.0.0.1", Some "403")].
Proof. reflexivity. Qed.

(** C5, amended.  If some transport call made while an event is handled is
    answered with status 403, the error flag is set when the handler
    returns; it stays set for the rest of the run, and the later events of
    the run make no transport call and emit no finding.  (The remaining
    targets of the event being handled are still queried.) *)
Theorem rejected_key_ends_the_run
        (w : World) (st : Plugin) (ev : SpiderFootEvent)
        (newc : list (Request * Response)) (later : list SpiderFootEvent) :
  calls (snd (handleEvent w ev st)) = calls st ++ newc →
  existsb (λ c, is_403 c.2) newc = true →
  errorState (snd (handleEvent w ev st)) = true ∧
  errorState (run w (ev :: later) st) = true ∧
  calls (run w (ev :: later) st) = calls (snd (handleEvent w ev st)) ∧
  emitted (run w (ev :: later) st) = emitted (snd (handleEvent w ev st)).
Proof.
  intros Hc Hx.
  destruct (advances_handleEvent w ev st)
    as (c' & f' & Hc' & _ & _ & _ & _ & H403 & _).
  rewrite Hc in Hc'. apply app_inv_head in Hc'. subst c'.
  assert (He : errorState (snd (handleEvent w ev st)) = true)
    by apply H403, existsb_Exists, Hx.
  split; [exact He|]. simpl.
  rewrite run_errorState by exact He. auto.
Qed.

Lemma rejected_key_ends_the_run_witness :
  errorState (snd (handleEvent rejected name_event configured)) = true ∧
  calls (run rejected [name_event; affiliate_event; netblock_event] configured)
  = calls (snd (handleEvent rejected name_event configured)).
Proof.
  destruct (rejected_key_ends_the_run
              rejected configured name_event
              [(query_request rejected (opts configured) "example.com" "reputation",
                forbidden)]
              [affiliate_event; netblock_event])
    as (He & _ & Hc & _); [reflexivity|reflexivity|].
  split; [exact He|exact Hc].
Defined.

(** *** C4: what an emitted finding carries *)



(** *** C1: the passive-DNS lookup *)

(** Whatever the event, every request the handler sends asks for the
    reputation of an identifier: the lookup kind of the passive-DNS block
    is misspelt and [query] replaces it. *)
Lemma handleEvent_requests_reputation_only w st ev :
  ∃ newc, calls (snd (handleEvent w ev st)) = calls st ++ newc ∧
          Forall (λ c, reputation_url (url c.1)) newc.
Proof.
  destruct (advances_handleEvent w ev st)
    as (newc & newf & Hc & _ & _ & _ & _ & _ & Hu & _).
  eauto.
Qed.

(** C1, on the address 203.0.113.5 whose passive-DNS record holds one
    hostname seen within the age limit.  The claim asks for a passive-DNS
    lookup and one co-hosted-site finding before the reputation finding.
    The handler asks twice for the reputation and emits the reputation
    finding alone. *)
Theorem passive_dns_lookup_is_never_made :
  (passive_dns_of "203.0.113.5"
   ∉ urls (snd (handleEvent cohosted (ip_event "203.0.113.5") configured)))
  ∧ urls (snd (handleEvent cohosted (ip_event "203.0.113.5") configured))
    = [reputation_of "203.0.113.5"; reputation_of "203.0.113.5"]
  ∧ map f_type (emitted (snd (handleEvent cohosted (ip_event "203.0.113.5") configured)))
    = ["MALICIOUS_IPADDR"].
Proof.
  assert (Hu : urls (snd (handleEvent cohosted (ip_event "203.0.113.5") configured))
               = [reputation_of "203.0.113.5"; reputation_of "203.0.113.5"])
    by reflexivity.
  split; [|split; [exact Hu|reflexivity]].
  rewrite Hu. intros H.
  apply elem_of_cons in H as [H|H]; [discriminate|].
  apply elem_of_cons in H as [H|H]; [discriminate|inversion H].
Qed.

(** *** C2: the age limit *)

(** C2, on a record with an activity of 2020 and the default limit of 30
    days.  The claim keeps the name of an activity out of the description
    when the activity is older than the limit.  The loop appends the name
    before it compares the dates, so the description holds it. *)
Theorem stale_activity_is_reported :
  strptime_ts stale_activity FmtActivity "2020-01-01T00:00:00" = Some 1577836800 ∧
  too_old (opts configured) 1577836800 now = true ∧
  emitted (snd (handleEvent stale_activity name_event configured))
  = [mkFinding "MALICIOUS_INTERNET_NAME"
               (JStr "Threat Score: 5:
 - Scanning Host
 - Malware Domain")
               self_name name_event].
Proof. repeat split; reflexivity. Qed.

(** *** C6: the category of an IPv6 address *)

(** C6.  The module watches IPV6_ADDRESS, and the chain of conditions
    gives that type no category; every other watched type gets one of the
    output enumeration.  On an IPv6 address with a qualifying record the
    handler raises on the unassigned variable and emits nothing. *)
Theorem ipv6_address_has_no_category :
  "IPV6_ADDRESS" ∈ watchedEvents ∧
  dispatch "IPV6_ADDRESS" None = None ∧
  Forall (λ t, t = "IPV6_ADDRESS" ∨
               ∃ c, dispatch t None = Some c ∧ c ∈ producedEvents) watchedEvents ∧
  fst (handleEvent stale_activity ipv6_event configured)
  = Raise (UnboundLocalError "evtType") ∧
  emitted (snd (handleEvent stale_activity ipv6_event configured)) = [].
Proof.
  split; [unfold watchedEvents; in_list|].
  split; [reflexivity|].
  split; [|split; reflexivity].
  unfold watchedEvents.
  repeat (apply Forall_cons; split;
          [first [left; reflexivity
                 | right; eexists; split; [reflexivity|unfold producedEvents; in_list]]|]).
  apply Forall_nil. exact I.
Qed.

(** *** C7: the score threshold *)

Lemma interpret_json c v :
  c ≠ Some "403" → c ≠ Some "404" →
  interpret (mkResponse c (Some (Json v))) = v.
Proof.
  intros H3 H4. unfold interpret, is_403. simpl.
  rewrite !bool_decide_eq_false_2 by (try exact H3; try exact H4; discriminate).
  reflexivity.
Qed.

(** C7.  When the service answers the reputation query for an identifier
    with a record whose threat score is below the configured minimum, the
    handler's step for that identifier ends normally and emits nothing,
    whatever the record holds under "activities". *)
Theorem below_threshold_emits_nothing
        (w : World) (ev : SpiderFootEvent) (evtType : option string) (addr : string)
        (st : Plugin) (c : option string) (d rd : list (string * json)) (s : Z) :
  fetchUrl w (length (calls st)) (query_request w (opts st) addr "reputation")
  = mkResponse c (Some (Json (JDict d))) →
  c ≠ Some "403" → c ≠ Some "404" →
  assoc "reputation" d = Some (JDict rd) →
  assoc "threat_score" rd = Some (JInt s) →
  (s < threat_score_min (opts st))%Z →
  ∃ st', reputation_target w ev evtType addr st = (Ok tt, st') ∧
         emitted st' = emitted st.
Proof.
  intros Hres H3 H4 Hrep Hscore Hlt.
  unfold reputation_target, bind. rewrite query_eq. cbv zeta.
  rewrite Hres, (interpret_json _ _ H3 H4).
  unfold classify. cbv [bind lift gets ret]. simpl.
  rewrite Hrep. simpl.
  destruct rd as [|kv rd]; [discriminate|].
  rewrite Hscore. simpl.
  apply Z.ltb_lt in Hlt. rewrite Hlt.
  eexists. split; reflexivity.
Qed.

Lemma below_threshold_emits_nothing_witness :
  ∃ st', reputation_target low_score name_event (Some "MALICIOUS_INTERNET_NAME")
                           "example.com" configured = (Ok tt, st') ∧
         emitted st' = emitted configured.
Proof.
  apply (below_threshold_emits_nothing
           low_score name_event (Some "MALICIOUS_INTERNET_NAME") "example.com" configured
           (Some "200")
           [("reputation",
             JDict [("threat_score", JInt 1);
                    ("activities", JList [activity "Scanning Host" "2023-11-10T08:00:00"])])]
           [("threat_score", JInt 1);
            ("activities", JList [activity "Scanning Host" "2023-11-10T08:00:00"])]
           1%Z);
    first [reflexivity | discriminate].
Defined.

(** *** C8: the dedup cache *)

(** C8, on the address 10.0.0.1 handled as an event of its own and then as
    a member of the netblock 10.0.0.0/31.  The claim asks that an identifier
    be queried for its reputation at most once per run.  After the first
    event the address is in the dedup cache and has been queried once; the
    members of the netblock are then queried without a look at the cache,
    so the address is queried a second time. *)
Theorem netblock_member_is_queried_again :
  results (snd (handleEvent stale_activity affiliate_event configured)) !! "10.0.0.1"
  = Some true ∧
  urls (snd (handleEvent stale_activity affiliate_event configured))
  = [reputation_of "10.0.0.1"] ∧
  urls (run stale_activity [affiliate_event; netblock_event] configured)
  = [reputation_of "10.0.0.1"; reputation_of "10.0.0.0"; reputation_of "10.0.0.1"].
Proof. repeat split; vm_compute; reflexivity. Qed.

Lemma netblock_is_not_ip_address eventName :
  startswith eventName "NETBLOCK_" = true → String.eqb eventName "IP_ADDRESS" = false.
Proof.
  intros H. destruct (String.eqb eventName "IP_ADDRESS") eqn:E; [|reflexivity].
  apply String.eqb_eq in E. subst. discriminate.
Qed.

(** The parts of the invariant that hold, for every world, state and
    event.  An event whose identifier is in the dedup cache is dropped
    without a transport call; an event submitted again right after it was
    handled makes no transport call; and when a netblock event is expanded,
    the handler goes into its loop of reputation queries in a state where
    no call has been made yet and every member address is in the cache. *)
Theorem dedup_cache_drops_and_marks
        (w : World) (st : Plugin) (ev : SpiderFootEvent) :
  (is_Some (results st !! data ev) →
   calls (snd (handleEvent w ev st)) = calls st) ∧
  calls (snd (handleEvent w ev (snd (handleEvent w ev st))))
  = calls (snd (handleEvent w ev st)) ∧
  (∀ ips : list string,
     errorState st = false → apikey (opts st) ≠ "" → results st !! data ev = None →
     startswith (eventType ev) "NETBLOCK_" = true →
     IPNetwork w (data ev) = Some ips →
     ∃ st1, calls st1 = calls st ∧
            (∀ ip, ip ∈ ips → results st1 !! ip = Some true) ∧
            handleEvent w ev st = reputation_loop w ev None ips st1).
Proof.
  split; [|split].
  - intros H. apply handleEvent_dropped. auto.
  - apply handleEvent_dropped.
    destruct (errorState st) eqn:He.
    { left. rewrite handleEvent_errorState by exact He. exact He. }
    destruct (decide (apikey (opts st) = "")) as [Hk|Hk].
    { left. rewrite handleEvent_no_key by assumption. reflexivity. }
    right. right.
    destruct (results st !! data ev) as [b|] eqn:Hs.
    { rewrite handleEvent_seen by (try assumption; rewrite Hs; eauto).
      simpl. rewrite Hs. eauto. }
    rewrite handleEvent_fresh by assumption.
    destruct (advances_handle_fresh w ev (mark (data ev) st))
      as (_ & _ & _ & _ & _ & Hr & _).
    apply Hr. simpl. rewrite lookup_insert_eq. eauto.
  - intros ips He Hk Hs Hn Hips.
    rewrite handleEvent_fresh by assumption.
    unfold handle_fresh. rewrite Hn, (netblock_is_not_ip_address _ Hn).
    unfold expand_netblock. rewrite Hips.
    destruct (foldl_mark_fields ips (mark (data ev) st))
      as (_ & _ & Hc & _ & _ & _ & _ & Hm).
    exists (foldl (λ s ip, mark ip s) (mark (data ev) st) ips).
    split; [exact Hc|]. split; [exact Hm|]. reflexivity.
Qed.

Lemma dedup_cache_drops_and_marks_witness :
  calls (snd (handleEvent stale_activity affiliate_event
                          (snd (handleEvent stale_activity netblock_event configured))))
  = calls (snd (handleEvent stale_activity netblock_event configured))
  ∧
  ∃ st1, calls st1 = calls configured ∧
         (∀ ip, ip ∈ ["10.0.0.0"; "10.0.0.1"] → results st1 !! ip = Some true) ∧
         handleEvent stale_activity netblock_event configured
         = reputation_loop stale_activity netblock_event None ["10.0.0.0"; "10.0.0.1"] st1.
Proof.
  split.
  - apply (proj1 (dedup_cache_drops_and_marks
                    stale_activity
                    (snd (handleEvent stale_activity netblock_event configured))
                    affiliate_event)).
    exists true. vm_compute. reflexivity.
  - apply (proj2 (proj2 (dedup_cache_drops_and_marks
                           stale_activity configured netblock_event))).
    + reflexivity.
    + discriminate.
    + reflexivity.
    + reflexivity.
    + reflexivity.
Defined.

(** *** C3: timestamps that are missing or do not parse *)

Lemma bad_timestamp_raises w fmt key d :
  bad_timestamp w fmt key d → entry_timestamp w fmt key (JDict d) = Raise ValueError.
Proof.
  unfold bad_timestamp, entry_timestamp. simpl.
  destruct (assoc key d) as [[| | |s| |]|]; simpl; try contradiction; intros ->; reflexivity.
Qed.

Lemma activity_entry_timestamp w descr e st n :
  activity_name e = Ok n →
  match entry_timestamp w FmtActivity "last_date" e with
  | Ok t => ∃ st', activity_entry w descr e st = (Ok (descr +:+ ("
 - " +:+ n)), st') ∧ same_but_clock st st'
  | Raise x => activity_entry w descr e st = (Raise x, st)
  end.
Proof.
  unfold activity_name, entry_timestamp, activity_entry. intros Hn.
  cbv [bind lift gets ret raise do_strptime do_time]. simpl.
  destruct (py_get e "name" (JStr "")) as [v|]; [|discriminate]. simpl.
  rewrite Hn. simpl.
  destruct (py_get e "last_date" (JStr "")) as [v'|]; [|reflexivity]. simpl.
  destruct (py_as_str v') as [s'|]; [|reflexivity]. simpl.
  destruct (strptime_ts w FmtActivity s'); [|reflexivity]. simpl.
  destruct (too_old _ _ _); eexists; (split; [reflexivity|repeat split]).
Qed.

Lemma activity_loop_raises w pre bad post n :
  Forall (good_activity w) pre →
  activity_name (JDict bad) = Ok n →
  bad_timestamp w FmtActivity "last_date" bad →
  ∀ descr st, ∃ st', activity_loop w descr (pre ++ JDict bad :: post) st
                     = (Raise ValueError, st') ∧ same_but_clock st st'.
Proof.
  intros Hpre Hn Hbad. induction Hpre as [|e pre (m & t & Hm & Ht) _ IH]; intros descr st.
  - simpl. pose proof (activity_entry_timestamp w descr (JDict bad) st n Hn) as H.
    rewrite (bad_timestamp_raises _ _ _ _ Hbad) in H.
    rewrite (bind_Raise _ _ _ _ _ H). eauto using same_but_clock_refl.
  - simpl. pose proof (activity_entry_timestamp w descr e st m Hm) as H.
    rewrite Ht in H. destruct H as (st1 & H & Hs).
    rewrite (bind_Ok _ _ _ _ _ H).
    destruct (IH (descr +:+ ("
 - " +:+ m)) st1) as (st' & Hrun & Hs').
    exists st'. split; [exact Hrun|]. eapply same_but_clock_trans; eauto.
Qed.

Lemma passive_dns_entry_raises w ev t rec st :
  is_Some (assoc "hostname" rec) →
  bad_timestamp w FmtPassiveDns "last" rec →
  passive_dns_entry w ev t (JDict rec) st = (Raise ValueError, st).
Proof.
  intros Hh Hbad. apply bad_timestamp_raises in Hbad.
  unfold entry_timestamp in Hbad. unfold passive_dns_entry.
  cbv [bind lift gets ret raise do_strptime do_time]. simpl in *.
  rewrite bool_decide_eq_true_2 by exact Hh.
  revert Hbad.
  destruct (default (JStr "") (assoc "last" rec)) as [| | |s| |]; simpl;
    try (intros H; discriminate H).
  destruct (strptime_ts w FmtPassiveDns s); [intros H; discriminate H|].
  reflexivity.
Qed.

Lemma passive_dns_loop_raises w ev t rec post :
  is_Some (assoc "hostname" rec) →
  bad_timestamp w FmtPassiveDns "last" rec →
  ∀ pre st st1,
    passive_dns_loop w ev t pre st = (Ok tt, st1) →
    passive_dns_loop w ev t (pre ++ JDict rec :: post) st = (Raise ValueError, st1).
Proof.
  intros Hh Hbad. induction pre as [|e pre IH]; intros st st1 Hrun; simpl in *.
  - injection Hrun as <-.
    apply bind_Raise, passive_dns_entry_raises; assumption.
  - apply bind_inv_Ok in Hrun as (a & stm & He & Hrest).
    rewrite (bind_Ok _ _ _ _ _ He). apply IH, Hrest.
Qed.

Lemma passive_dns_entry_no_hostname w ev t rec st :
  assoc "hostname" rec = None →
  passive_dns_entry w ev t (JDict rec) st = (Ok tt, st).
Proof.
  intros Hh. unfold passive_dns_entry. cbv [bind lift ret]. simpl.
  rewrite bool_decide_eq_false_2; [reflexivity|].
  rewrite Hh. intros [x Hx]. discriminate.
Qed.

(** C3, on entries the service can send.  The claim asks that an entry
    whose timestamp is missing or not in the expected format be discarded
    and the other entries processed, and that no exception reach the caller
    of the handler.  The loops read the field with the empty string as
    default and hand it to the parser, which raises ValueError; nothing
    catches it.  The handler raises to its caller and emits no finding
    (a) for an activity without [last_date] and (b) for an activity dated as
    in the comment of the loop, "2014-11-06T10:45:00.000", which the format
    of the loop does not accept; (c) for a netblock the first member raises
    and the second is never queried; (d) for a passive-DNS entry that has a
    hostname and no [last], the entry before it has been reported, the entry
    after it is not, and the reputation of the address is never
    classified. *)
Theorem missing_timestamp_raises_to_the_caller :
  (fst (handleEvent undated_activity name_event configured) = Raise ValueError ∧
   emitted (snd (handleEvent undated_activity name_event configured)) = [])
  ∧
  (strptime_ts fractional_activity FmtActivity "2014-11-06T10:45:00.000" = None ∧
   fst (handleEvent fractional_activity name_event configured) = Raise ValueError ∧
   emitted (snd (handleEvent fractional_activity name_event configured)) = [])
  ∧
  (fst (handleEvent undated_activity netblock_event configured) = Raise ValueError ∧
   urls (snd (handleEvent undated_activity netblock_event configured))
   = [reputation_of "10.0.0.0"] ∧
   emitted (snd (handleEvent undated_activity netblock_event configured)) = [])
  ∧
  (fst (handleEvent (both_keys [pdns_entry "a.example.com" "2023-11-10 00:00:00";
                                JDict [("hostname", JStr "b.example.com")];
                                pdns_entry "c.example.com" "2023-11-10 00:00:00"])
                    (ip_event "203.0.113.5") configured) = Raise ValueError ∧
   map f_data
       (emitted (snd (handleEvent
                        (both_keys [pdns_entry "a.example.com" "2023-11-10 00:00:00";
                                    JDict [("hostname", JStr "b.example.com")];
                                    pdns_entry "c.example.com" "2023-11-10 00:00:00"])
                        (ip_event "203.0.113.5") configured)))
   = [JStr "a.example.com"]).
Proof. repeat split; reflexivity. Qed.

(** How far the defect reaches, for every world.  (a) When the record of
    the one identifier of an event that is neither an IP_ADDRESS nor a
    netblock qualifies by its score and the activity loop reaches an entry
    whose timestamp is missing or rejected by the parser, the handler raises
    ValueError to its caller and no finding is emitted for the event.
    (b) When the passive-DNS loop reaches an entry that has a hostname and
    such a timestamp, the loop raises ValueError in the state the entries
    before it left, and the entries after it are not looked at.  (c) A
    passive-DNS entry without a hostname is passed over, whatever its
    timestamp. *)
Theorem unparsable_timestamp_raises (w : World) (ev : SpiderFootEvent) :
  (∀ (st : Plugin) (c : option string) (d rd bad : list (string * json)) (s : Z)
     (pre post : list json) (n : string),
     errorState st = false → apikey (opts st) ≠ "" → results st !! data ev = None →
     startswith (eventType ev) "NETBLOCK_" = false →
     String.eqb (eventType ev) "IP_ADDRESS" = false →
     checkForStop w (stop_polls st) = false →
     fetchUrl w (length (calls st)) (query_request w (opts st) (data ev) "reputation")
     = mkResponse c (Some (Json (JDict d))) →
     c ≠ Some "403" → c ≠ Some "404" →
     assoc "reputation" d = Some (JDict rd) →
     assoc "threat_score" rd = Some (JInt s) →
     (threat_score_min (opts st) ≤ s)%Z →
     assoc "activities" rd = Some (JList (pre ++ JDict bad :: post)) →
     Forall (good_activity w) pre →
     activity_name (JDict bad) = Ok n →
     bad_timestamp w FmtActivity "last_date" bad →
     ∃ st', handleEvent w ev st = (Raise ValueError, st') ∧ emitted st' = emitted st)
  ∧
  (∀ (t : string) (pre post : list json) (rec : list (string * json)) (st st1 : Plugin),
     passive_dns_loop w ev t pre st = (Ok tt, st1) →
     is_Some (assoc "hostname" rec) →
     bad_timestamp w FmtPassiveDns "last" rec →
     passive_dns_loop w ev t (pre ++ JDict rec :: post) st = (Raise ValueError, st1))
  ∧
  (∀ (t : string) (rec : list (string * json)) (st : Plugin),
     assoc "hostname" rec = None →
     passive_dns_entry w ev t (JDict rec) st = (Ok tt, st)).
Proof.
  split; [|split].
  - intros st c d rd bad s pre post n He Hk Hs Hn Hip Hstop Hres H3 H4 Hrep Hscore Hle
           Hact Hpre Hname Hbad.
    assert (Ht : ∀ evtType st0,
               opts st0 = opts st → calls st0 = calls st → emitted st0 = emitted st →
               ∃ st', reputation_target w ev evtType (data ev) st0 = (Raise ValueError, st')
                      ∧ emitted st' = emitted st).
    { intros evtType st0 Ho Hc Hf.
      unfold reputation_target, bind. rewrite query_eq. cbv zeta.
      rewrite Ho, Hc, Hres, (interpret_json _ _ H3 H4).
      unfold classify. cbv [bind lift gets ret]. simpl.
      rewrite Hrep. simpl.
      destruct rd as [|kv rd]; [discriminate|].
      rewrite Hscore, Hact. simpl.
      apply Z.ltb_ge in Hle. rewrite Hle.
      match goal with
      | |- context [activity_loop w ?descr _ ?st1] =>
          destruct (activity_loop_raises w pre bad post n Hpre Hname Hbad descr st1)
            as (st' & Hrun & Hsame)
      end.
      rewrite Hrun. exists st'. split; [reflexivity|].
      destruct Hsame as (_ & _ & _ & _ & Hf' & _). rewrite Hf'. exact Hf. }
    rewrite handleEvent_fresh by assumption.
    unfold handle_fresh. rewrite Hn, Hip.
    cbv [bind ret reputation_loop do_checkForStop]. simpl. rewrite Hstop.
    match goal with
    | |- context [reputation_target w ev ?t (data ev) ?st0] =>
        destruct (Ht t st0 eq_refl eq_refl eq_refl) as (st' & Hrun & Hf)
    end.
    rewrite Hrun. exists st'. split; [reflexivity|exact Hf].
  - intros t pre post rec st st1 Hrun Hh Hbad.
    eapply passive_dns_loop_raises; eassumption.
  - intros t rec st Hh. apply passive_dns_entry_no_hostname, Hh.
Qed.

Lemma unparsable_timestamp_raises_witness :
  (∃ st', handleEvent undated_activity name_event configured = (Raise ValueError, st') ∧
          emitted st' = emitted configured)
  ∧
  passive_dns_loop undated_activity name_event "CO_HOSTED_SITE"
                   ([] ++ JDict [("hostname", JStr "b.example.com")] :: []) configured
  = (Raise ValueError, configured).
Proof.
  split.
  - apply (proj1 (unparsable_timestamp_raises undated_activity name_event)
                 configured (Some "200")
                 [("reputation",
                   JDict [("threat_score", JInt 5);
                          ("activities", JList [JDict [("name", JStr "Scanning Host")]])])]
                 [("threat_score", JInt 5);
                  ("activities", JList [JDict [("name", JStr "Scanning Host")]])]
                 [("name", JStr "Scanning Host")]
                 5%Z [] [] "Scanning Host").
    + reflexivity.
    + discriminate.
    + reflexivity.
    + reflexivity.
    + reflexivity.
    + reflexivity.
    + reflexivity.
    + discriminate.
    + discriminate.
    + reflexivity.
    + reflexivity.
    + vm_compute. discriminate.
    + reflexivity.
    + apply Forall_nil. exact I.
    + reflexivity.
    + reflexivity.
  - apply (proj1 (proj2 (unparsable_timestamp_raises undated_activity name_event))).
    + reflexivity.
    + exists (JStr "b.example.com"). reflexivity.
    + reflexivity.
Defined.

(* ===================================================================== *)
(** ** Further properties of the code *)
(* ===================================================================== *)

(** *** Where the findings come from *)

Lemma emits_only_same P st st' : emitted st' = emitted st → emits_only P st st'.
Proof. intros H. exists []. rewrite app_nil_r. split; [exact H|constructor]. Qed.

Lemma emits_only_trans P a b c :
  emits_only P a b → emits_only P b c → emits_only P a c.
Proof.
  intros (f1 & H1 & P1) (f2 & H2 & P2). exists (f1 ++ f2). split.
  - rewrite H2, H1, <- List.app_assoc. reflexivity.
  - apply Forall_app; auto.
Qed.

Lemma emits_only_notify P f : P f → keeps (emits_only P) (notifyListeners f).
Proof. intros H st. exists [f]. split; [reflexivity|]. constructor; [exact H|constructor]. Qed.

Lemma handleEvent_emits_from_event w ev :
  keeps (emits_only (from_event ev)) (handleEvent w ev).
Proof.
  apply keeps_handleEvent.
  - intros st. apply emits_only_same. reflexivity.
  - apply emits_only_trans.
  - intros st. apply emits_only_same. reflexivity.
  - intros st. apply emits_only_same. reflexivity.
  - intros k st. apply emits_only_same. reflexivity.
  - intros st. apply emits_only_same. reflexivity.
  - intros qry k _ st. rewrite query_eq. apply emits_only_same. reflexivity.
  - intros Hip%String.eqb_eq host. apply emits_only_notify.
    repeat split. left. split; [reflexivity|exact Hip].
  - intros c descr Hc. apply emits_only_notify.
    repeat split. right. split; [exact Hc|]. eexists. reflexivity.
Qed.

(** *** How many transport calls an event costs *)

Lemma no_call_trans a b c : no_call a b → no_call b c → no_call a c.
Proof. unfold no_call. congruence. Qed.

Lemma classify_no_call w ev t rec : keeps no_call (classify w ev t rec).
Proof.
  intros st. destruct (classify_spec w ev t rec st) as (_ & _ & _ & Hc & _).
  exact Hc.
Qed.

Lemma passive_dns_answer_no_call w ev (r : json) :
  String.eqb (eventType ev) "IP_ADDRESS" = true →
  keeps no_call
        (match r with
         | JNull => ret tt
         | _ =>
             has <- lift (py_in "passve_dns" r) ;;
             if has
             then res <- lift (py_getitem r "passive_dns") ;;
                  recs <- lift (py_iter res) ;;
                  passive_dns_loop w ev "CO_HOSTED_SITE" recs
             else ret tt
         end).
Proof.
  intros Hip. apply keeps_passive_dns_answer; try exact Hip.
  - intros st. reflexivity.
  - apply no_call_trans.
  - intros st. reflexivity.
  - intros _ host st. reflexivity.
Qed.

Lemma reputation_target_one_call w ev t addr st :
  ∃ c, calls (snd (reputation_target w ev t addr st)) = calls st ++ [c] ∧
       url c.1 = query_url w addr "reputation".
Proof.
  unfold reputation_target, bind. rewrite query_eq. cbv zeta.
  eexists. rewrite classify_no_call. split; reflexivity.
Qed.

Lemma passive_dns_block_one_call w ev st :
  String.eqb (eventType ev) "IP_ADDRESS" = true →
  ∃ c, calls (snd (passive_dns_block w ev st)) = calls st ++ [c] ∧
       url c.1 = query_url w (data ev) "passve_dns".
Proof.
  intros Hip. unfold passive_dns_block, bind. rewrite query_eq. cbv zeta.
  eexists. rewrite (passive_dns_answer_no_call w ev _ Hip). split; reflexivity.
Qed.

Lemma reputation_loop_calls w ev qrylist : ∀ t st,
  ∃ newc, calls (snd (reputation_loop w ev t qrylist st)) = calls st ++ newc ∧
          map (λ c, url c.1) newc
            `prefix_of` map (λ a, query_url w a "reputation") qrylist ∧
          ((∀ n, checkForStop w n = false) →
           fst (reputation_loop w ev t qrylist st) = Ok tt →
           map (λ c, url c.1) newc = map (λ a, query_url w a "reputation") qrylist).
Proof.
  induction qrylist as [|addr rest IH]; intros t st; simpl.
  - exists []. rewrite app_nil_r. split; [reflexivity|]. split; [apply prefix_nil|auto].
  - unfold bind at 1 3, do_checkForStop. simpl.
    destruct (checkForStop w (stop_polls st)) eqn:Hstop; simpl.
    { exists []. rewrite app_nil_r. split; [reflexivity|].
      split; [apply prefix_nil|].
      intros Hnever. rewrite Hnever in Hstop. discriminate Hstop. }
    unfold bind.
    destruct (reputation_target_one_call w ev (dispatch (eventType ev) t) addr (polled st))
      as (c & Hc & Hu).
    fold (polled st).
    destruct (reputation_target w ev (dispatch (eventType ev) t) addr (polled st))
      as [[[]|e] st1]; simpl in *.
    + destruct (IH (dispatch (eventType ev) t) st1) as (newc & Hn & Hp & Hall).
      exists (c :: newc). split; [|split].
      * rewrite Hn, Hc, <- List.app_assoc. reflexivity.
      * simpl. rewrite Hu. apply prefix_cons, Hp.
      * intros Hnever Hok. simpl. rewrite Hu. f_equal. apply Hall; assumption.
    + exists [c]. split; [exact Hc|]. split.
      * simpl. rewrite Hu. apply prefix_cons, prefix_nil.
      * intros _ Hok. discriminate Hok.
Qed.

Lemma handle_fresh_calls w ev st :
  ∃ newc, calls (snd (handle_fresh w ev st)) = calls st ++ newc ∧
          map (λ c, url c.1) newc `prefix_of` expected_urls w ev ∧
          ((∀ n, checkForStop w n = false) →
           fst (handle_fresh w ev st) = Ok tt →
           map (λ c, url c.1) newc = expected_urls w ev).
Proof.
  unfold handle_fresh, expected_urls, targets.
  destruct (startswith (eventType ev) "NETBLOCK_") eqn:Hn.
  - rewrite (netblock_is_not_ip_address _ Hn).
    unfold expand_netblock. destruct (IPNetwork w (data ev)) as [ips|]; simpl.
    + cbv [bind modify ret].
      destruct (foldl_mark_fields ips st) as (_ & _ & Hc & _).
      destruct (reputation_loop_calls w ev ips None (foldl (λ s ip, mark ip s) st ips))
        as (newc & Hn' & Hp & Hall).
      exists newc. rewrite Hn', Hc. auto.
    + exists []. rewrite app_nil_r. split; [reflexivity|].
      split; [apply prefix_nil|]. intros _ Hok. discriminate Hok.
  - set (l := [data ev]). clearbody l.
    destruct (String.eqb (eventType ev) "IP_ADDRESS") eqn:Hip.
    + cbv [bind ret].
      destruct (passive_dns_block_one_call w ev st Hip) as (c & Hc & Hu).
      destruct (passive_dns_block w ev st) as [[[]|e] st1]; simpl in Hc |- *.
      * destruct (reputation_loop_calls w ev l (Some "CO_HOSTED_SITE") st1)
          as (newc & Hn' & Hp & Hall).
        exists (c :: newc). split; [|split].
        -- rewrite Hn', Hc, <- List.app_assoc. reflexivity.
        -- simpl. rewrite Hu. apply prefix_cons, Hp.
        -- intros Hnever Hok. simpl. rewrite Hu. f_equal. apply Hall; assumption.
      * exists [c]. split; [exact Hc|]. split.
        -- simpl. rewrite Hu. apply prefix_cons, prefix_nil.
        -- intros _ Hok. discriminate Hok.
    + cbv [bind ret].
      destruct (reputation_loop_calls w ev l None st) as (newc & Hn' & Hp & Hall).
      exists newc. auto.
Qed.

(** *** What the requests carry *)

Lemma calls_only_same P st st' :
  opts st' = opts st → calls st' = calls st → calls_only P st st'.
Proof.
  intros Ho Hc. split; [exact Ho|]. exists []. rewrite app_nil_r.
  split; [exact Hc|constructor].
Qed.

Lemma calls_only_trans w a b c :
  calls_only (reputation_request w (opts a)) a b →
  calls_only (reputation_request w (opts b)) b c →
  calls_only (reputation_request w (opts a)) a c.
Proof.
  intros (Ho1 & c1 & H1 & P1) (Ho2 & c2 & H2 & P2).
  split; [congruence|]. exists (c1 ++ c2). split.
  - rewrite H2, H1, <- List.app_assoc. reflexivity.
  - apply Forall_app. split; [exact P1|]. rewrite Ho1 in P2. exact P2.
Qed.

Lemma query_request_kind w o qry k :
  k ≠ "passive_dns" → query_request w o qry k = query_request w o qry "reputation".
Proof.
  intros Hk. unfold query_request. f_equal.
  unfold query_url. cbv zeta. case_bool_decide as Hin; [|reflexivity].
  apply elem_of_cons in Hin as [->|Hin]; [done|].
  apply list_elem_of_singleton in Hin as ->. reflexivity.
Qed.

Lemma handleEvent_sends_reputation_requests w ev :
  keeps (λ st st', calls_only (reputation_request w (opts st)) st st') (handleEvent w ev).
Proof.
  apply keeps_handleEvent.
  - intros st. apply calls_only_same; reflexivity.
  - intros a b c. apply calls_only_trans.
  - intros st. apply calls_only_same; reflexivity.
  - intros st. apply calls_only_same; reflexivity.
  - intros k st. apply calls_only_same; reflexivity.
  - intros st. apply calls_only_same; reflexivity.
  - intros qry k Hk st. rewrite query_eq. cbv zeta. split; [reflexivity|].
    eexists [_]. split; [reflexivity|]. constructor; [|constructor].
    exists qry. simpl. apply query_request_kind, Hk.
  - intros _ host st. apply calls_only_same; reflexivity.
  - intros c descr _ st. apply calls_only_same; reflexivity.
Qed.

(** *** X1-X5: what handling an event adds to the instance *)

(** X1.  Every finding emitted while an event is handled names that event
    as its source and this module as its origin, and is either a
    co-hosted-site finding of an IP_ADDRESS event or a description under
    the category the chain of conditions gives the type of the event. *)
Theorem findings_name_their_event
        (w : World) (ev : SpiderFootEvent) (st : Plugin) :
  ∃ newf, emitted (snd (handleEvent w ev st)) = emitted st ++ newf ∧
          Forall (from_event ev) newf.
Proof. exact (handleEvent_emits_from_event w ev st). Qed.

(** X2.  MALICIOUS_NETBLOCK is in the list [producedEvents] returns, yet no
    event makes the handler emit a finding of that type; and a
    CO_HOSTED_SITE finding is emitted only for an IP_ADDRESS event. *)
Theorem malicious_netblock_is_never_emitted
        (w : World) (ev : SpiderFootEvent) (st : Plugin) :
  "MALICIOUS_NETBLOCK" ∈ producedEvents ∧
  ∃ newf, emitted (snd (handleEvent w ev st)) = emitted st ++ newf ∧
          Forall (λ f, f_type f ≠ "MALICIOUS_NETBLOCK" ∧
                       (f_type f = "CO_HOSTED_SITE" → eventType ev = "IP_ADDRESS")) newf.
Proof.
  split; [unfold producedEvents; in_list|].
  destruct (handleEvent_emits_from_event w ev st) as (newf & Hf & Hall).
  exists newf. split; [exact Hf|].
  eapply Forall_impl; [exact Hall|].
  intros f (_ & _ & [[Ht Hip]|[Hd _]]).
  - split; [rewrite Ht; discriminate|auto].
  - assert (Hc : f_type f ∈ malicious_categories)
      by (apply (dispatch_category_ok (eventType ev) None category_ok_None), Hd).
    unfold malicious_categories in Hc.
    repeat (apply elem_of_cons in Hc as [->|Hc]; [split; discriminate|]).
    inversion Hc.
Qed.

(** X3.  Handling an event asks for the event's identifier first when the
    event is an IP_ADDRESS, and then for its targets (the identifier, or the
    members of its netblock) in their order, each at most once: the URLs
    requested are a prefix of that list.  They are the whole list when the
    event passes the guards, the stop signal stays down and the handler
    returns normally. *)
Theorem targets_are_queried_in_order
        (w : World) (ev : SpiderFootEvent) (st : Plugin) :
  ∃ newc, calls (snd (handleEvent w ev st)) = calls st ++ newc ∧
          map (λ c, url c.1) newc `prefix_of` expected_urls w ev ∧
          (errorState st = false → apikey (opts st) ≠ "" →
           results st !! data ev = None →
           (∀ n, checkForStop w n = false) →
           fst (handleEvent w ev st) = Ok tt →
           map (λ c, url c.1) newc = expected_urls w ev).
Proof.
  destruct (errorState st) eqn:He;
    [|destruct (decide (apikey (opts st) = "")) as [Hk|Hk];
      [|destruct (results st !! data ev) as [b|] eqn:Hs]].
  4:{ rewrite handleEvent_fresh by assumption.
      destruct (handle_fresh_calls w ev (mark (data ev) st)) as (newc & Hc & Hp & Hall).
      exists newc. split; [exact Hc|]. split; [exact Hp|]. auto. }
  all: exists []; rewrite app_nil_r; split;
    [apply handleEvent_dropped; rewrite ?Hs; eauto|].
  all: split; [apply prefix_nil|].
  all: intros H1 H2 H3; first [discriminate H1 | contradiction | discriminate H3].
Qed.

Lemma targets_are_queried_in_order_witness :
  ∃ newc, calls (snd (handleEvent stale_activity netblock_event configured)) = newc ∧
          map (λ c, url c.1) newc = [reputation_of "10.0.0.0"; reputation_of "10.0.0.1"].
Proof.
  destruct (targets_are_queried_in_order stale_activity netblock_event configured)
    as (newc & Hc & _ & Hall).
  exists newc. split; [exact Hc|].
  apply Hall; [reflexivity|discriminate|reflexivity|reflexivity|reflexivity].
Defined.

(** X4.  A run only adds to the instance: the options stay as they are, the
    calls made and the findings emitted so far stay at the head of the
    records, no identifier leaves the dedup cache, and a set error flag
    stays set. *)
Theorem run_only_adds (w : World) (events : list SpiderFootEvent) (st : Plugin) :
  opts (run w events st) = opts st ∧
  calls st `prefix_of` calls (run w events st) ∧
  emitted st `prefix_of` emitted (run w events st) ∧
  (∀ k, is_Some (results st !! k) → is_Some (results (run w events st) !! k)) ∧
  (errorState st = true → errorState (run w events st) = true).
Proof.
  destruct (extends_run w events st)
    as (newc & newf & Hc & Hf & Ho & Hr & He & _).
  split; [exact Ho|].
  split; [exists newc; exact Hc|].
  split; [exists newf; exact Hf|].
  split; assumption.
Qed.

(** X5.  Every request the handler sends is the one [query] builds for the
    reputation of some identifier: the URL of that lookup, the configured
    timeout, the user agent "SpiderFoot", and the headers Accept and
    X-OTX-API-KEY, the latter with the configured credential. *)
Theorem requests_carry_the_credential
        (w : World) (ev : SpiderFootEvent) (st : Plugin) :
  ∃ newc, calls (snd (handleEvent w ev st)) = calls st ++ newc ∧
          Forall (λ c, ∃ addr,
                      url c.1 = query_url w addr "reputation" ∧
                      timeout c.1 = fetchtimeout (opts st) ∧
                      useragent c.1 = "SpiderFoot" ∧
                      headers c.1 = [("Accept", "application/json");
                                     ("X-OTX-API-KEY", apikey (opts st))]) newc.
Proof.
  destruct (handleEvent_sends_reputation_requests w ev st) as (_ & newc & Hc & Hall).
  exists newc. split; [exact Hc|].
  eapply Forall_impl; [exact Hall|].
  intros c (addr & ->). exists addr. repeat split.
Qed.

(** *** X6, X7: the stop signal and a malformed netblock *)

Lemma reputation_loop_stopped w ev t qrylist st :
  checkForStop w (stop_polls st) = true →
  ∃ st', reputation_loop w ev t qrylist st = (Ok tt, st') ∧
         calls st' = calls st ∧ emitted st' = emitted st ∧ results st' = results st.
Proof.
  intros Hstop. destruct qrylist as [|addr rest]; simpl.
  - exists st. auto.
  - unfold bind, do_checkForStop. simpl. rewrite Hstop.
    eexists. split; [reflexivity|]. auto.
Qed.

(** X6.  When the stop signal is up at the first poll, an event that has
    passed the guards and is not an IP_ADDRESS is finished without a
    transport call and without a finding; its identifier is in the dedup
    cache all the same, so it will be dropped if it is submitted again. *)
Theorem stop_signal_ends_the_loop
        (w : World) (ev : SpiderFootEvent) (st : Plugin) :
  errorState st = false → apikey (opts st) ≠ "" → results st !! data ev = None →
  String.eqb (eventType ev) "IP_ADDRESS" = false →
  (startswith (eventType ev) "NETBLOCK_" = true → is_Some (IPNetwork w (data ev))) →
  checkForStop w (stop_polls st) = true →
  fst (handleEvent w ev st) = Ok tt ∧
  calls (snd (handleEvent w ev st)) = calls st ∧
  emitted (snd (handleEvent w ev st)) = emitted st ∧
  results (snd (handleEvent w ev st)) !! data ev = Some true.
Proof.
  intros He Hk Hs Hip Hnet Hstop.
  rewrite handleEvent_fresh by assumption.
  unfold handle_fresh. rewrite Hip.
  destruct (startswith (eventType ev) "NETBLOCK_").
  - destruct (Hnet eq_refl) as [ips Hips].
    unfold expand_netblock. rewrite Hips. cbv [bind modify ret].
    destruct (foldl_mark_fields ips (mark (data ev) st))
      as (_ & _ & Hc & Hf & _ & Hp & _ & _).
    destruct (reputation_loop_stopped
                w ev None ips (foldl (λ s ip, mark ip s) (mark (data ev) st) ips))
      as (st' & Hrun & Hc' & Hf' & Hr').
    { rewrite Hp. exact Hstop. }
    rewrite Hrun. simpl. rewrite Hc', Hf', Hr', Hc, Hf.
    repeat split. apply foldl_mark_keeps. simpl. apply lookup_insert_eq.
  - cbv [bind ret].
    destruct (reputation_loop_stopped w ev None [data ev] (mark (data ev) st) Hstop)
      as (st' & Hrun & Hc' & Hf' & Hr').
    rewrite Hrun. simpl. rewrite Hc', Hf', Hr'.
    repeat split. simpl. apply lookup_insert_eq.
Qed.

Lemma stop_signal_ends_the_loop_witness :
  fst (handleEvent (stopped stale_activity) netblock_event configured) = Ok tt ∧
  calls (snd (handleEvent (stopped stale_activity) netblock_event configured)) = [] ∧
  emitted (snd (handleEvent (stopped stale_activity) netblock_event configured)) = [] ∧
  results (snd (handleEvent (stopped stale_activity) netblock_event configured))
    !! "10.0.0.0/31" = Some true.
Proof.
  apply (stop_signal_ends_the_loop (stopped stale_activity) netblock_event configured).
  - reflexivity.
  - discriminate.
  - reflexivity.
  - reflexivity.
  - intros _. eexists. reflexivity.
  - reflexivity.
Defined.

(** X7.  For a netblock event whose identifier [IPNetwork] refuses, the
    handler raises the library's error before any transport call; the
    identifier has been put in the dedup cache by then, so the same event
    submitted again is dropped without an error. *)
Theorem malformed_netblock_raises_once
        (w : World) (ev : SpiderFootEvent) (st : Plugin) :
  errorState st = false → apikey (opts st) ≠ "" → results st !! data ev = None →
  startswith (eventType ev) "NETBLOCK_" = true →
  IPNetwork w (data ev) = None →
  handleEvent w ev st = (Raise AddrFormatError, mark (data ev) st) ∧
  handleEvent w ev (mark (data ev) st) = (Ok tt, mark (data ev) st).
Proof.
  intros He Hk Hs Hn Hnone. split.
  - rewrite handleEvent_fresh by assumption.
    unfold handle_fresh, expand_netblock. rewrite Hn, Hnone. reflexivity.
  - apply handleEvent_seen; try assumption.
    simpl. rewrite lookup_insert_eq. eauto.
Qed.

Lemma malformed_netblock_raises_once_witness :
  handleEvent stale_activity (mkEvent "NETBLOCK_MEMBER" "not a netblock" "sfp_ripe" None)
              configured
  = (Raise AddrFormatError, mark "not a netblock" configured) ∧
  handleEvent stale_activity (mkEvent "NETBLOCK_MEMBER" "not a netblock" "sfp_ripe" None)
              (mark "not a netblock" configured)
  = (Ok tt, mark "not a netblock" configured).
Proof.
  apply (malformed_netblock_raises_once
           stale_activity (mkEvent "NETBLOCK_MEMBER" "not a netblock" "sfp_ripe" None)
           configured).
  - reflexivity.
  - discriminate.
  - reflexivity.
  - reflexivity.
  - reflexivity.
Defined.

(** *** X8: the age limit of the passive-DNS loop *)

(** X8.  For a passive-DNS entry with a hostname and a timestamp that
    parses, the loop body returns normally and: with an age limit of zero
    (or below) it emits the co-hosted-site finding whatever the age; with a
    positive limit it emits nothing when the timestamp lies more than that
    many days before the clock, and the finding otherwise. *)
Theorem passive_dns_age_rule
        (w : World) (ev : SpiderFootEvent) (evtType : string)
        (rec : list (string * json)) (host : json) (last : string) (ts : Z)
        (st : Plugin) :
  assoc "hostname" rec = Some host →
  assoc "last" rec = Some (JStr last) →
  strptime_ts w FmtPassiveDns last = Some ts →
  ∃ st', passive_dns_entry w ev evtType (JDict rec) st = (Ok tt, st') ∧
         calls st' = calls st ∧
         let limit := age_limit_days (opts st) in
         let cutoff := (time_time w (clock_reads st) - 86400 * limit)%Z in
         let finding := mkFinding evtType host self_name ev in
         ((limit ≤ 0)%Z → emitted st' = emitted st ++ [finding]) ∧
         ((0 < limit)%Z → (ts < cutoff)%Z → emitted st' = emitted st) ∧
         ((0 < limit)%Z → (cutoff ≤ ts)%Z → emitted st' = emitted st ++ [finding]).
Proof.
  intros Hh Hl Hts. unfold passive_dns_entry.
  cbv [bind lift gets ret raise do_strptime do_time modify notifyListeners]. simpl.
  rewrite bool_decide_eq_true_2 by (rewrite Hh; eauto).
  rewrite Hl, Hh. simpl. rewrite Hts. simpl.
  unfold too_old. simpl.
  destruct (0 <? age_limit_days (opts st))%Z eqn:Hpos; simpl;
    [destruct (ts <? time_time w (clock_reads st) - 86400 * age_limit_days (opts st))%Z
       eqn:Hold|].
  all: eexists; split; [reflexivity|]; split; [reflexivity|].
  all: try apply Z.ltb_lt in Hpos; try apply Z.ltb_ge in Hpos.
  all: try apply Z.ltb_lt in Hold; try apply Z.ltb_ge in Hold.
  all: cbv zeta; simpl; repeat split; intros; first [reflexivity | lia].
Qed.

Lemma passive_dns_age_rule_witness :
  ∃ st', passive_dns_entry cohosted (ip_event "203.0.113.5") "CO_HOSTED_SITE"
                           (JDict [("hostname", JStr "old.example.com");
                                   ("last", JStr "2020-01-01 00:00:00")]) configured
         = (Ok tt, st') ∧ emitted st' = emitted configured.
Proof.
  destruct (passive_dns_age_rule
              cohosted (ip_event "203.0.113.5") "CO_HOSTED_SITE"
              [("hostname", JStr "old.example.com"); ("last", JStr "2020-01-01 00:00:00")]
              (JStr "old.example.com") "2020-01-01 00:00:00" 1577836800%Z configured)
    as (st' & Hrun & _ & _ & Hold & _); [reflexivity|reflexivity|reflexivity|].
  exists st'. split; [exact Hrun|].
  apply Hold; vm_compute; reflexivity.
Defined.

(** *** X9-X12: what the target loop makes of the answer for a target *)

Lemma bind_ret_tt (m : M unit) st : (m ;;; ret tt) st = m st.
Proof. unfold bind, ret. destruct (m st) as [[[]|e] st']; reflexivity. Qed.

Lemma query_keeps_findings w addr k st :
  emitted (snd (query w addr k st)) = emitted st ∧
  results (snd (query w addr k st)) = results st ∧
  opts (snd (query w addr k st)) = opts st ∧
  clock_reads (snd (query w addr k st)) = clock_reads st.
Proof. rewrite query_eq. repeat split. Qed.

Lemma reputation_target_eq w ev t addr st :
  reputation_target w ev t addr st =
  classify w ev t (answer w st addr "reputation") (snd (query w addr "reputation" st)).
Proof. unfold reputation_target, bind, answer. rewrite !query_eq. reflexivity. Qed.

Lemma reputation_loop_single w ev t addr st :
  checkForStop w (stop_polls st) = false →
  reputation_loop w ev t [addr] st =
  classify w ev (dispatch (eventType ev) t) (answer w st addr "reputation")
           (snd (query w addr "reputation" (polled st))).
Proof.
  intros Hstop. simpl reputation_loop. unfold bind at 1, do_checkForStop.
  rewrite Hstop. rewrite bind_ret_tt. fold (polled st).
  rewrite reputation_target_eq. reflexivity.
Qed.

Lemma handleEvent_single_target w ev st :
  reaches_target w ev st →
  handleEvent w ev st =
  classify w ev (dispatch (eventType ev) None)
           (answer w (loop_entry w ev st) (data ev) "reputation")
           (snd (query w (data ev) "reputation" (polled (loop_entry w ev st)))).
Proof.
  intros (He & Hk & Hs & Hnet & Hblock & Hstop).
  rewrite handleEvent_fresh by assumption.
  unfold handle_fresh. rewrite Hnet. unfold loop_entry in *.
  destruct (String.eqb (eventType ev) "IP_ADDRESS") eqn:Hip.
  - specialize (Hblock eq_refl).
    change (bind (passive_dns_block w ev ;;; ret (Some "CO_HOSTED_SITE"))
                 (λ t, reputation_loop w ev t [data ev]) (mark (data ev) st)
            = classify w ev (dispatch (eventType ev) None)
                       (answer w (snd (passive_dns_block w ev (mark (data ev) st)))
                               (data ev) "reputation")
                       (snd (query w (data ev) "reputation"
                                   (polled (snd (passive_dns_block
                                                   w ev (mark (data ev) st))))))).
    unfold bind at 1 2, ret.
    destruct (passive_dns_block w ev (mark (data ev) st)) as [[[]|e] st1];
      [|discriminate Hblock].
    cbv beta iota. simpl snd in *.
    rewrite (reputation_loop_single _ _ _ _ _ Hstop).
    rewrite !(dispatch_ip_address _ _ Hip). reflexivity.
  - change (reputation_loop w ev None [data ev] (mark (data ev) st)
            = classify w ev (dispatch (eventType ev) None)
                       (answer w (mark (data ev) st) (data ev) "reputation")
                       (snd (query w (data ev) "reputation" (polled (mark (data ev) st))))).
    apply reputation_loop_single, Hstop.
Qed.

Lemma loop_entry_spec w ev st :
  adds_cohosts_and ev [] st (loop_entry w ev st) ∧
  is_Some (results (loop_entry w ev st) !! data ev) ∧
  opts (loop_entry w ev st) = opts st.
Proof.
  unfold loop_entry, adds_cohosts_and.
  destruct (String.eqb (eventType ev) "IP_ADDRESS") eqn:Hip.
  - destruct (advances_passive_dns_block w ev (mark (data ev) st))
      as (_ & _ & _ & _ & Ho & Hr & _).
    assert (Hco : emits_only (λ f, f_type f = "CO_HOSTED_SITE") (mark (data ev) st)
                             (snd (passive_dns_block w ev (mark (data ev) st)))).
    { apply keeps_passive_dns_block; try exact Hip.
      - intros s0. apply emits_only_same. reflexivity.
      - apply emits_only_trans.
      - intros s0. apply emits_only_same. reflexivity.
      - intros qry k _ s0. apply emits_only_same. rewrite query_eq. reflexivity.
      - intros _ host s0. apply emits_only_notify. reflexivity. }
    destruct Hco as (cohosts & Hf & Hall).
    split; [|split; [|exact Ho]].
    + exists cohosts. rewrite app_nil_r. split; [exact Hf|]. split; [exact Hall|].
      intros H; discriminate H.
    + apply Hr. simpl. rewrite lookup_insert_eq. eauto.
  - split; [|split; [|reflexivity]].
    + exists []. split; [simpl; now rewrite app_nil_r|]. split; [constructor|reflexivity].
    + simpl. rewrite lookup_insert_eq. eauto.
Qed.

Lemma adds_cohosts_and_then ev last st st1 st' :
  adds_cohosts_and ev [] st st1 → emitted st' = emitted st1 ++ last →
  adds_cohosts_and ev last st st'.
Proof.
  intros (cohosts & Hf & Hall & Hnone) Hlast. exists cohosts.
  rewrite app_nil_r in Hf. rewrite Hlast, Hf, <- List.app_assoc. auto.
Qed.

Lemma activity_loop_good w acts names :
  Forall2 (dated_activity w) acts names →
  ∀ descr st, ∃ st',
    activity_loop w descr acts st
    = (Ok (descr +:+ String.concat "" (map (λ n, "
 - " +:+ n) names)), st') ∧ same_but_clock st st'.
Proof.
  induction 1 as [|e n acts names (Hn & t & Ht) _ IH]; intros descr st; simpl.
  - exists st. rewrite string_app_nil_r. split; [reflexivity|apply same_but_clock_refl].
  - pose proof (activity_entry_timestamp w descr e st n Hn) as H.
    rewrite Ht in H. destruct H as (st1 & H & Hs1).
    rewrite (bind_Ok _ _ _ _ _ H).
    destruct (IH (descr +:+ ("
 - " +:+ n)) st1) as (st' & Hrun & Hs').
    exists st'. split; [|eapply same_but_clock_trans; eauto].
    rewrite Hrun. f_equal. f_equal.
    rewrite string_app_assoc. f_equal.
    destruct names; simpl; [now rewrite string_app_nil_r|reflexivity].
Qed.

(** The four outcomes of the classification of one answer. *)
Lemma classify_non_object w ev t rec st :
  non_object rec → classify w ev t rec st = (Raise AttributeError, st).
Proof.
  intros [Hnull Hobj].
  destruct rec as [|b|z|s|l|d];
    first [exfalso; apply Hnull; reflexivity
          | exfalso; apply (Hobj d); reflexivity
          | reflexivity].
Qed.

Lemma classify_lacks_score w ev t rec st :
  lacks_score rec → classify w ev t rec st = (Raise (KeyError "threat_score"), st).
Proof.
  intros (d & rd & -> & Hrep & Hne & Hscore).
  unfold classify. cbv [bind lift gets ret]. simpl. rewrite Hrep. simpl.
  destruct rd as [|kv rd]; [contradiction|].
  rewrite Hscore. reflexivity.
Qed.

Lemma classify_lacks_reputation w ev t rec st :
  lacks_reputation rec → classify w ev t rec st = (Ok tt, st).
Proof.
  intros [->|(d & -> & Hfalsy)]; [reflexivity|].
  unfold classify. cbv [bind lift gets ret]. simpl. rewrite Hfalsy. reflexivity.
Qed.

Lemma classify_qualifying w ev c rec s names st :
  qualifying w (opts st) rec s names →
  ∃ st', classify w ev (Some c) rec st = (Ok tt, st') ∧
         emitted st' = emitted st ++ [mkFinding c (JStr (describe (JInt s) names))
                                                self_name ev].
Proof.
  intros (d & rd & acts & -> & Hrep & Hscore & Hge & Hacts & Hgood).
  unfold classify. cbv [bind lift gets ret]. simpl. rewrite Hrep. simpl.
  destruct rd as [|kv rd]; [discriminate|].
  rewrite Hscore, Hacts. simpl.
  apply Z.ltb_ge in Hge. rewrite Hge.
  destruct (activity_loop_good w acts names Hgood
              ("Threat Score: " +:+ str_of_Z s +:+ ":") st)
    as (st2 & Hrun & (_ & _ & _ & _ & Hf2 & _)).
  rewrite Hrun. eexists. split; [reflexivity|]. simpl. rewrite Hf2. reflexivity.
Qed.

(** X9.  The body of the target loop, run for any identifier of an event of
    any type, raises AttributeError and emits nothing when the answer to its
    reputation query is JSON that is neither null nor an object.  For an
    event that is not a netblock, passes the guards, is not stopped and
    whose passive-DNS block (run for an IP_ADDRESS event only) returned
    normally, the handler itself raises AttributeError to its caller; it has
    then emitted nothing but co-hosted-site findings, and none unless the
    event is an IP_ADDRESS, and the identifier is in the dedup cache. *)
Theorem non_object_answer_raises
        (w : World) (ev : SpiderFootEvent) (st : Plugin) :
  (∀ (t : option string) (addr : string),
     non_object (answer w st addr "reputation") →
     fst (reputation_target w ev t addr st) = Raise AttributeError ∧
     emitted (snd (reputation_target w ev t addr st)) = emitted st)
  ∧
  (reaches_target w ev st →
   non_object (answer w (loop_entry w ev st) (data ev) "reputation") →
   fst (handleEvent w ev st) = Raise AttributeError ∧
   adds_cohosts_and ev [] st (snd (handleEvent w ev st)) ∧
   is_Some (results (snd (handleEvent w ev st)) !! data ev)).
Proof.
  split.
  - intros t addr Hans. rewrite reputation_target_eq.
    rewrite (classify_non_object _ _ _ _ _ Hans). simpl.
    split; [reflexivity|apply query_keeps_findings].
  - intros Hreach Hans.
    rewrite (handleEvent_single_target w ev st Hreach).
    rewrite (classify_non_object _ _ _ _ _ Hans). simpl.
    destruct (query_keeps_findings w (data ev) "reputation" (polled (loop_entry w ev st)))
      as (Hf & Hr & _).
    destruct (loop_entry_spec w ev st) as (Hco & Hin & _).
    split; [reflexivity|]. split.
    + eapply adds_cohosts_and_then; [exact Hco|].
      rewrite Hf, app_nil_r. reflexivity.
    + rewrite Hr. exact Hin.
Qed.

Lemma non_object_answer_raises_witness :
  fst (handleEvent (service (λ _, ok_json (JList []))) (ip_event "203.0.113.5") configured)
  = Raise AttributeError.
Proof.
  apply (proj2 (non_object_answer_raises
                  (service (λ _, ok_json (JList []))) (ip_event "203.0.113.5") configured)).
  - repeat split; first [discriminate | reflexivity | intros _; reflexivity].
  - split; [discriminate|intros d; discriminate].
Defined.

(** X10.  The body of the target loop, for any identifier of any event,
    raises KeyError for the key threat_score and emits nothing when the
    answer is an object whose reputation is a non-empty object without a
    threat score.  For an event that is not a netblock, passes the guards,
    is not stopped and whose passive-DNS block (IP_ADDRESS only) returned
    normally, the handler raises that KeyError to its caller, having emitted
    nothing but co-hosted-site findings, and none unless the event is an
    IP_ADDRESS. *)
Theorem record_without_score_raises
        (w : World) (ev : SpiderFootEvent) (st : Plugin) :
  (∀ (t : option string) (addr : string),
     lacks_score (answer w st addr "reputation") →
     fst (reputation_target w ev t addr st) = Raise (KeyError "threat_score") ∧
     emitted (snd (reputation_target w ev t addr st)) = emitted st)
  ∧
  (reaches_target w ev st →
   lacks_score (answer w (loop_entry w ev st) (data ev) "reputation") →
   fst (handleEvent w ev st) = Raise (KeyError "threat_score") ∧
   adds_cohosts_and ev [] st (snd (handleEvent w ev st))).
Proof.
  split.
  - intros t addr Hans. rewrite reputation_target_eq.
    rewrite (classify_lacks_score _ _ _ _ _ Hans). simpl.
    split; [reflexivity|apply query_keeps_findings].
  - intros Hreach Hans.
    rewrite (handleEvent_single_target w ev st Hreach).
    rewrite (classify_lacks_score _ _ _ _ _ Hans). simpl.
    destruct (query_keeps_findings w (data ev) "reputation" (polled (loop_entry w ev st)))
      as (Hf & _).
    destruct (loop_entry_spec w ev st) as (Hco & _).
    split; [reflexivity|].
    eapply adds_cohosts_and_then; [exact Hco|].
    rewrite Hf, app_nil_r. reflexivity.
Qed.

Lemma record_without_score_raises_witness :
  fst (handleEvent
         (service (λ _, ok_json (JDict [("reputation", JDict [("activities", JList [])])])))
         (ip_event "203.0.113.5") configured)
  = Raise (KeyError "threat_score").
Proof.
  apply (proj2 (record_without_score_raises
                  (service (λ _, ok_json (JDict [("reputation",
                                                  JDict [("activities", JList [])])])))
                  (ip_event "203.0.113.5") configured)).
  - repeat split; first [discriminate | reflexivity | intros _; reflexivity].
  - exists [("reputation", JDict [("activities", JList [])])], [("activities", JList [])].
    repeat split; first [discriminate | reflexivity].
Defined.

(** X11.  The body of the target loop, for any identifier of any event,
    returns normally and emits nothing when the lookup yields None
    (rejected, not found, no body, a body that is not JSON, JSON null) or an
    object whose reputation is absent or falsy.  For an event that is not a
    netblock, passes the guards, is not stopped and whose passive-DNS block
    (IP_ADDRESS only) returned normally, the handler returns normally,
    having emitted nothing but co-hosted-site findings, and none unless the
    event is an IP_ADDRESS. *)
Theorem answer_without_reputation_is_ignored
        (w : World) (ev : SpiderFootEvent) (st : Plugin) :
  (∀ (t : option string) (addr : string),
     lacks_reputation (answer w st addr "reputation") →
     fst (reputation_target w ev t addr st) = Ok tt ∧
     emitted (snd (reputation_target w ev t addr st)) = emitted st)
  ∧
  (reaches_target w ev st →
   lacks_reputation (answer w (loop_entry w ev st) (data ev) "reputation") →
   fst (handleEvent w ev st) = Ok tt ∧
   adds_cohosts_and ev [] st (snd (handleEvent w ev st))).
Proof.
  split.
  - intros t addr Hans. rewrite reputation_target_eq.
    rewrite (classify_lacks_reputation _ _ _ _ _ Hans). simpl.
    split; [reflexivity|apply query_keeps_findings].
  - intros Hreach Hans.
    rewrite (handleEvent_single_target w ev st Hreach).
    rewrite (classify_lacks_reputation _ _ _ _ _ Hans). simpl.
    destruct (query_keeps_findings w (data ev) "reputation" (polled (loop_entry w ev st)))
      as (Hf & _).
    destruct (loop_entry_spec w ev st) as (Hco & _).
    split; [reflexivity|].
    eapply adds_cohosts_and_then; [exact Hco|].
    rewrite Hf, app_nil_r. reflexivity.
Qed.

Lemma answer_without_reputation_is_ignored_witness :
  fst (handleEvent (service (λ _, not_found)) (ip_event "203.0.113.5") configured) = Ok tt.
Proof.
  apply (proj2 (answer_without_reputation_is_ignored
                  (service (λ _, not_found)) (ip_event "203.0.113.5") configured)).
  - repeat split; first [discriminate | reflexivity | intros _; reflexivity].
  - left. reflexivity.
Defined.

(** X12.  The body of the target loop, for any identifier of any event to
    whose type the chain of conditions has given a category, returns
    normally and emits exactly one finding when the answer carries a
    reputation whose integer score is not below the threshold and whose
    activities all have a name and a timestamp that parses: the finding has
    that category, the event as source and the description
    "Threat Score: <score>:" followed by one line per activity, in the
    order of the answer.  For an event that is not a netblock, passes the
    guards, is not stopped and whose passive-DNS block (IP_ADDRESS only)
    returned normally, the handler returns normally, having emitted
    co-hosted-site findings (none unless the event is an IP_ADDRESS) and
    then that one finding, and nothing else. *)
Theorem qualifying_record_gives_one_finding
        (w : World) (ev : SpiderFootEvent) (st : Plugin)
        (s : Z) (names : list string) (c : string) :
  (∀ addr : string,
     qualifying w (opts st) (answer w st addr "reputation") s names →
     fst (reputation_target w ev (Some c) addr st) = Ok tt ∧
     emitted (snd (reputation_target w ev (Some c) addr st))
     = emitted st ++ [mkFinding c (JStr (describe (JInt s) names)) self_name ev])
  ∧
  (reaches_target w ev st →
   qualifying w (opts st) (answer w (loop_entry w ev st) (data ev) "reputation") s names →
   dispatch (eventType ev) None = Some c →
   fst (handleEvent w ev st) = Ok tt ∧
   adds_cohosts_and ev [mkFinding c (JStr (describe (JInt s) names)) self_name ev]
                    st (snd (handleEvent w ev st))).
Proof.
  split.
  - intros addr Hans. rewrite reputation_target_eq.
    destruct (query_keeps_findings w addr "reputation" st) as (Hf & _ & Ho & _).
    rewrite <- Ho in Hans.
    destruct (classify_qualifying w ev c _ s names _ Hans) as (st' & Hrun & Hf').
    rewrite Hrun. simpl. rewrite Hf', Hf. auto.
  - intros Hreach Hans Hc.
    rewrite (handleEvent_single_target w ev st Hreach), Hc.
    destruct (query_keeps_findings w (data ev) "reputation" (polled (loop_entry w ev st)))
      as (Hf & _ & Ho & _).
    destruct (loop_entry_spec w ev st) as (Hco & _ & Ho').
    assert (Hans' : qualifying
                      w (opts (snd (query w (data ev) "reputation"
                                          (polled (loop_entry w ev st)))))
                      (answer w (loop_entry w ev st) (data ev) "reputation") s names).
    { rewrite Ho. simpl. rewrite Ho'. exact Hans. }
    destruct (classify_qualifying w ev c _ s names _ Hans') as (st' & Hrun & Hf').
    rewrite Hrun. simpl. split; [reflexivity|].
    eapply adds_cohosts_and_then; [exact Hco|].
    rewrite Hf', Hf. reflexivity.
Qed.

Lemma qualifying_record_gives_one_finding_witness :
  fst (handleEvent cohosted (ip_event "203.0.113.5") configured) = Ok tt ∧
  adds_cohosts_and (ip_event "203.0.113.5")
                   [mkFinding "MALICIOUS_IPADDR"
                              (JStr (describe (JInt 5) ["Scanning Host"]))
                              self_name (ip_event "203.0.113.5")]
                   configured
                   (snd (handleEvent cohosted (ip_event "203.0.113.5") configured)).
Proof.
  apply (proj2 (qualifying_record_gives_one_finding
                  cohosted (ip_event "203.0.113.5") configured
                  5%Z ["Scanning Host"] "MALICIOUS_IPADDR")).
  - repeat split; first [discriminate | reflexivity | intros _; reflexivity].
  - exists [("reputation",
             JDict [("threat_score", JInt 5);
                    ("activities", JList [activity "Scanning Host" "2023-11-10T08:00:00"])])],
           [("threat_score", JInt 5);
            ("activities", JList [activity "Scanning Host" "2023-11-10T08:00:00"])],
           [activity "Scanning Host" "2023-11-10T08:00:00"].
    split; [reflexivity|]. split; [reflexivity|]. split; [reflexivity|].
    split; [vm_compute; discriminate|]. split; [reflexivity|].
    repeat constructor; eexists; vm_compute; reflexivity.
  - reflexivity.
Defined.

(** *** X13: the two keys of the passive-DNS block *)

(** X13.  The passive-DNS block looks for the key passve_dns in the answer
    and reads the key passive_dns.  An object without passve_dns is passed
    over, whatever it holds under passive_dns: the block returns normally
    and emits nothing.  An object with passve_dns and without passive_dns
    makes the block raise KeyError for passive_dns. *)
Theorem passive_dns_needs_both_keys
        (w : World) (ev : SpiderFootEvent) (st : Plugin) (d : list (string * json)) :
  answer w st (data ev) "passve_dns" = JDict d →
  (assoc "passve_dns" d = None →
   fst (passive_dns_block w ev st) = Ok tt ∧
   emitted (snd (passive_dns_block w ev st)) = emitted st) ∧
  (is_Some (assoc "passve_dns" d) → assoc "passive_dns" d = None →
   fst (passive_dns_block w ev st) = Raise (KeyError "passive_dns") ∧
   emitted (snd (passive_dns_block w ev st)) = emitted st).
Proof.
  intros Hans. unfold answer in Hans.
  unfold passive_dns_block, bind. rewrite query_eq. cbv zeta. rewrite Hans.
  split.
  - intros Hno. unfold lift. simpl.
    rewrite bool_decide_eq_false_2 by (rewrite Hno; intros [? [=]]).
    auto.
  - intros Hyes Hno. unfold lift. simpl.
    rewrite bool_decide_eq_true_2 by exact Hyes.
    rewrite Hno. auto.
Qed.

Lemma passive_dns_needs_both_keys_witness :
  fst (passive_dns_block
         (service (λ _, ok_json (passive_dns_record
                                   [pdns_entry "a.example.com" "2023-11-01 00:00:00"])))
         (ip_event "203.0.113.5") configured) = Ok tt ∧
  emitted (snd (passive_dns_block
                  (service (λ _, ok_json (passive_dns_record
                                            [pdns_entry "a.example.com"
                                                        "2023-11-01 00:00:00"])))
                  (ip_event "203.0.113.5") configured)) = [].
Proof.
  apply (proj1 (passive_dns_needs_both_keys
                  (service (λ _, ok_json (passive_dns_record
                                            [pdns_entry "a.example.com"
                                                        "2023-11-01 00:00:00"])))
                  (ip_event "203.0.113.5") configured
                  [("passive_dns", JList [pdns_entry "a.example.com" "2023-11-01 00:00:00"])]
                  eq_refl)).
  reflexivity.
Defined.

(** *** X14: what [query] makes of the transport's answer *)

(** X14.  [query] never raises and makes exactly one transport call; it
    emits nothing and leaves options and cache alone.  On the status 403 it
    returns None and sets the error flag, even when the body is JSON.  On
    any other status the flag is left as it was, and the result is the
    parsed body when there is one and the status is not 404, None
    otherwise. *)
Theorem query_outcome (w : World) (qry querytype : string) (st : Plugin) :
  let rq := query_request w (opts st) qry querytype in
  let res := fetchUrl w (length (calls st)) rq in
  let out := query w qry querytype st in
  calls out.2 = calls st ++ [(rq, res)] ∧
  emitted out.2 = emitted st ∧ opts out.2 = opts st ∧ results out.2 = results st ∧
  (code res = Some "403" → out.1 = Ok JNull ∧ errorState out.2 = true) ∧
  (code res ≠ Some "403" →
   errorState out.2 = errorState st ∧
   (code res = Some "404" → out.1 = Ok JNull) ∧
   (content res = None → out.1 = Ok JNull) ∧
   (∀ raw, content res = Some (Unparseable raw) → out.1 = Ok JNull) ∧
   (∀ info, content res = Some (Json info) → code res ≠ Some "404" → out.1 = Ok info)).
Proof.
  cbv zeta. rewrite query_eq. cbv zeta.
  set (res := fetchUrl w _ _). simpl.
  do 4 (split; [reflexivity|]).
  unfold interpret, is_403. split.
  - intros H3. rewrite (bool_decide_eq_true_2 _ H3).
    split; [reflexivity|apply orb_true_r].
  - intros H3. rewrite (bool_decide_eq_false_2 _ H3).
    split; [apply orb_false_r|].
    split; [|split; [|split]].
    + intros H4. rewrite (bool_decide_eq_true_2 _ H4), orb_true_r. reflexivity.
    + intros Hn. rewrite (bool_decide_eq_true_2 _ Hn). reflexivity.
    + intros raw Hraw. rewrite Hraw. destruct (_ || _); reflexivity.
    + intros info Hinfo H4. rewrite (bool_decide_eq_false_2 _ H4), Hinfo.
      rewrite bool_decide_eq_false_2 by discriminate. reflexivity.
Qed.

Lemma query_outcome_witness :
  (query rejected "example.com" "reputation" configured).1 = Ok JNull ∧
  errorState (query rejected "example.com" "reputation" configured).2 = true.
Proof.
  apply (proj1 (proj2 (proj2 (proj2 (proj2
           (query_outcome rejected "example.com" "reputation" configured)))))).
  reflexivity.
Defined.

(** *** X15: the chain of conditions that names the category *)

(** X15.  The chain of conditions depends on the event's type alone where a
    condition holds: IP_ADDRESS and every type that begins with NETBLOCK_
    give MALICIOUS_IPADDR, and four more types give the category of their
    name.  For every other type the variable keeps the value it had, be it
    unset, the value of the passive-DNS block or that of an earlier
    iteration. *)
Theorem dispatch_table (eventName : string) (evtType : option string) :
  (eventName = "IP_ADDRESS" ∨ startswith eventName "NETBLOCK_" = true →
   dispatch eventName evtType = Some "MALICIOUS_IPADDR") ∧
  (eventName = "AFFILIATE_IPADDR" →
   dispatch eventName evtType = Some "MALICIOUS_AFFILIATE_IPADDR") ∧
  (eventName = "INTERNET_NAME" →
   dispatch eventName evtType = Some "MALICIOUS_INTERNET_NAME") ∧
  (eventName = "AFFILIATE_INTERNET_NAME" →
   dispatch eventName evtType = Some "MALICIOUS_AFFILIATE_INTERNET_NAME") ∧
  (eventName = "CO_HOSTED_SITE" →
   dispatch eventName evtType = Some "MALICIOUS_COHOST") ∧
  (eventName ∉ ["IP_ADDRESS"; "AFFILIATE_IPADDR"; "INTERNET_NAME";
                "AFFILIATE_INTERNET_NAME"; "CO_HOSTED_SITE"] →
   startswith eventName "NETBLOCK_" = false →
   dispatch eventName evtType = evtType).
Proof.
  repeat split.
  - intros [->|Hn]; [reflexivity|].
    unfold dispatch. rewrite Hn, orb_true_r.
    destruct (String.eqb_spec eventName "AFFILIATE_IPADDR") as [->|_]; [discriminate Hn|].
    destruct (String.eqb_spec eventName "INTERNET_NAME") as [->|_]; [discriminate Hn|].
    destruct (String.eqb_spec eventName "AFFILIATE_INTERNET_NAME") as [->|_];
      [discriminate Hn|].
    destruct (String.eqb_spec eventName "CO_HOSTED_SITE") as [->|_]; [discriminate Hn|].
    reflexivity.
  - intros ->. reflexivity.
  - intros ->. reflexivity.
  - intros ->. reflexivity.
  - intros ->. reflexivity.
  - intros Hnot Hn. unfold dispatch. rewrite Hn, orb_false_r.
    repeat match goal with
           | |- context [String.eqb eventName ?s] =>
               destruct (String.eqb_spec eventName s) as [->|_];
               [exfalso; apply Hnot; in_list|]
           end.
    reflexivity.
Qed.

Lemma dispatch_table_witness :
  dispatch "NETBLOCK_MEMBER" (Some "CO_HOSTED_SITE") = Some "MALICIOUS_IPADDR".
Proof.
  apply (proj1 (dispatch_table "NETBLOCK_MEMBER" (Some "CO_HOSTED_SITE"))).
  right. reflexivity.
Defined.

(** *** X16: [setup] and the dedup cache *)

(** X16.  [setup] empties the dedup cache: an event the instance drops as
    already seen is looked up again once [setup] has run, with a request for
    the reputation of its identifier as the first new call. *)
Theorem setup_forgets_the_cache
        (w : World) (u : UserOpts) (ev : SpiderFootEvent) (st : Plugin) :
  errorState st = false →
  apikey (opts st) ≠ "" →
  apikey (merge_opts u (opts st)) ≠ "" →
  is_Some (results st !! data ev) →
  startswith (eventType ev) "NETBLOCK_" = false →
  checkForStop w (stop_polls st) = false →
  calls (snd (handleEvent w ev st)) = calls st ∧
  ∃ c rest, calls (snd (handleEvent w ev (setup u st))) = calls st ++ c :: rest ∧
            url c.1 = query_url w (data ev) "reputation".
Proof.
  intros He Hk Hk' Hseen Hnet Hstop. split.
  { rewrite handleEvent_seen by assumption. reflexivity. }
  rewrite handleEvent_fresh; [|exact He|exact Hk'|apply lookup_empty].
  unfold handle_fresh. rewrite Hnet.
  destruct (String.eqb (eventType ev) "IP_ADDRESS") eqn:Hip.
  - generalize [data ev]. intros l. cbv [bind ret].
    destruct (passive_dns_block_one_call w ev (mark (data ev) (setup u st)) Hip)
      as (c & Hc & Hu).
    rewrite query_url_passve_dns in Hu.
    destruct (passive_dns_block w ev (mark (data ev) (setup u st)))
      as [[[]|e] st1]; simpl in Hc |- *.
    + destruct (reputation_loop_calls w ev l (Some "CO_HOSTED_SITE") st1)
        as (newc & Hn & _).
      exists c, newc. split; [|exact Hu].
      rewrite Hn, Hc, <- List.app_assoc. reflexivity.
    + exists c, []. split; [exact Hc|exact Hu].
  - change (∃ c rest,
              calls (snd (reputation_loop w ev None [data ev] (mark (data ev) (setup u st))))
              = calls st ++ c :: rest ∧ url c.1 = query_url w (data ev) "reputation").
    simpl reputation_loop. unfold bind at 1, do_checkForStop.
    change (stop_polls (mark (data ev) (setup u st))) with (stop_polls st).
    rewrite Hstop, bind_ret_tt.
    fold (polled (mark (data ev) (setup u st))).
    destruct (reputation_target_one_call
                w ev (dispatch (eventType ev) None) (data ev)
                (polled (mark (data ev) (setup u st)))) as (c & Hc & Hu).
    exists c, []. split; [exact Hc|exact Hu].
Qed.

Lemma setup_forgets_the_cache_witness :
  calls (snd (handleEvent stale_activity name_event
                          (snd (handleEvent stale_activity name_event configured))))
  = calls (snd (handleEvent stale_activity name_event configured)) ∧
  ∃ c rest,
    calls (snd (handleEvent stale_activity name_event
                            (setup new_key
                                   (snd (handleEvent stale_activity name_event configured)))))
    = calls (snd (handleEvent stale_activity name_event configured)) ++ c :: rest ∧
    url c.1 = query_url stale_activity "example.com" "reputation".
Proof.
  apply (setup_forgets_the_cache
           stale_activity new_key name_event
           (snd (handleEvent stale_activity name_event configured))).
  - reflexivity.
  - discriminate.
  - discriminate.
  - exists true. vm_compute. reflexivity.
  - reflexivity.
  - reflexivity.
Defined.

(** *** X17: the members of a netblock and later events *)

(** X17.  Once a netblock event has been expanded, every member address is
    in the dedup cache, also when the loop over the members was stopped or
    raised before it reached them: an event that arrives later for a member
    address is dropped without a transport call and without a finding. *)
Theorem netblock_members_are_dropped_later
        (w : World) (nb ev : SpiderFootEvent) (st : Plugin) (ips : list string) :
  errorState st = false → apikey (opts st) ≠ "" → results st !! data nb = None →
  startswith (eventType nb) "NETBLOCK_" = true →
  IPNetwork w (data nb) = Some ips →
  data ev ∈ ips →
  fst (handleEvent w ev (snd (handleEvent w nb st))) = Ok tt ∧
  calls (snd (handleEvent w ev (snd (handleEvent w nb st))))
  = calls (snd (handleEvent w nb st)) ∧
  emitted (snd (handleEvent w ev (snd (handleEvent w nb st))))
  = emitted (snd (handleEvent w nb st)).
Proof.
  intros He Hk Hs Hn Hips Hin.
  apply handleEvent_dropped. right. right.
  rewrite handleEvent_fresh by assumption.
  unfold handle_fresh. rewrite Hn, (netblock_is_not_ip_address _ Hn).
  unfold expand_netblock. rewrite Hips. cbv [bind modify ret].
  destruct (advances_reputation_loop
              w nb ips None (dispatch_category_ok _ _ category_ok_None)
              (foldl (λ s ip, mark ip s) (mark (data nb) st) ips))
    as (_ & _ & _ & _ & _ & Hr & _).
  apply Hr.
  destruct (foldl_mark_fields ips (mark (data nb) st)) as (_ & _ & _ & _ & _ & _ & _ & Hm).
  rewrite (Hm _ Hin). eauto.
Qed.

Lemma netblock_members_are_dropped_later_witness :
  fst (handleEvent (stopped stale_activity) affiliate_event
                   (snd (handleEvent (stopped stale_activity) netblock_event configured)))
  = Ok tt ∧
  calls (snd (handleEvent (stopped stale_activity) affiliate_event
                          (snd (handleEvent (stopped stale_activity) netblock_event
                                            configured))))
  = calls (snd (handleEvent (stopped stale_activity) netblock_event configured)) ∧
  emitted (snd (handleEvent (stopped stale_activity) affiliate_event
                            (snd (handleEvent (stopped stale_activity) netblock_event
                                              configured))))
  = emitted (snd (handleEvent (stopped stale_activity) netblock_event configured)).
Proof.
  apply (netblock_members_are_dropped_later
           (stopped stale_activity) netblock_event affiliate_event configured
           ["10.0.0.0"; "10.0.0.1"]).
  - reflexivity.
  - discriminate.
  - reflexivity.
  - reflexivity.
  - reflexivity.
  - apply list_elem_of_further, list_elem_of_here.
Defined.
